(** * Climate dashboard: the regional projection model

    A shallow embedding of [src/components/ClimateAIDashboard.tsx]: the
    region table, the historical-data transformer
    [getRegionalHistoricalData] and the metric projector [calculateMetrics],
    over an exact model of ECMAScript Numbers (IEEE 754 binary64, taken from
    the Standard Library's [SpecFloat]) and of the two runtime methods the
    code calls on them, [Number.prototype.toFixed] and [Number(string)]. *)

From Stdlib Require Import ZArith QArith Qabs Qround Bool List Ascii String Lia.
From Stdlib Require Import SpecFloat Sorted.
Import ListNotations.

Local Open Scope Z_scope.

(** ** ECMAScript Numbers *)

Module JS.

(** A Number is a binary64 value: 53 bits of precision, infinities at
    exponent 1024. *)
Definition number : Type := spec_float.
Definition prec : Z := 53.
Definition emax : Z := 1024.

Definition NaN : number := S754_nan.
Definition Infinity : number := S754_infinity false.

(** The arithmetic operators [+], [-], [*], [/] on Numbers (round to
    nearest, ties to even). *)
Definition add (x y : number) : number := SFadd prec emax x y.
Definition sub (x y : number) : number := SFsub prec emax x y.
Definition mul (x y : number) : number := SFmul prec emax x y.
Definition div (x y : number) : number := SFdiv prec emax x y.

(** The relational operators [<] and [<=]; both are false on NaN. *)
Definition ltb (x y : number) : bool := SFltb x y.
Definition leb (x y : number) : bool := SFleb x y.

(** The Number value of a mathematical integer, as an integer literal or
    [parseInt] produces it: exact up to 2^53, nearest-even beyond. *)
Definition of_Z (z : Z) : number := binary_normalize prec emax z 0 false.

(** The Number value of the ratio [p / q] with sign [s]: the correctly
    rounded quotient of two exact integers. *)
Definition of_ratio (s : bool) (p q : positive) : number :=
  let '(mz, ez, lz) := SFdiv_core_binary prec emax (Zpos p) 0 (Zpos q) 0 in
  binary_round_aux prec emax s mz ez lz.

(** The Number value of [(-1)^s * n * 10^e], the mathematical value of a
    decimal literal with digits [n] and decimal exponent [e]. *)
Definition of_decimal (s : bool) (n : Z) (e : Z) : number :=
  match n with
  | Zpos p =>
      match e with
      | Z0 => of_ratio s p 1
      | Zpos k => of_ratio s (p * Pos.pow 10 k) 1
      | Zneg k => of_ratio s p (Pos.pow 10 k)
      end
  | _ => S754_zero s
  end.

(** A decimal source literal [d.ddd], written as its digits and the number
    of digits after the point: [lit 11 1] is [1.1]. *)
Definition lit (n : Z) (frac : Z) : number := of_decimal false n (- frac).

Definition is_finite (x : number) : bool :=
  match x with
  | S754_zero _ | S754_finite _ _ _ => true
  | _ => false
  end.

(** The mathematical value of a finite Number. *)
Definition Qpow2 (e : Z) : Q :=
  match e with
  | Z0 => 1%Q
  | Zpos k => inject_Z (Z.pow_pos 2 k)
  | Zneg k => (1 # Pos.pow 2 k)%Q
  end.

Definition R (x : number) : Q :=
  match x with
  | S754_finite s m e =>
      ((if s then inject_Z (Zneg m) else inject_Z (Zpos m)) * Qpow2 e)%Q
  | _ => 0%Q
  end.

(** *** Decimal digit strings *)

Definition digit_char (d : Z) : ascii := ascii_of_nat (48 + Z.to_nat d).

Definition is_digit (c : ascii) : bool :=
  let n := nat_of_ascii c in (48 <=? n)%nat && (n <=? 57)%nat.

Definition digit_val (c : ascii) : Z := Z.of_nat (nat_of_ascii c) - 48.

Fixpoint digits_aux (fuel : nat) (n : Z) (acc : list ascii) : list ascii :=
  match fuel with
  | O => acc
  | S fuel' =>
      let acc' := digit_char (n mod 10) :: acc in
      if n <? 10 then acc' else digits_aux fuel' (n / 10) acc'
  end.

(** The digits of the decimal representation of [n >= 0], in order, with no
    leading zeroes ([0] is written "0"). *)
Definition decimal_digits (n : Z) : list ascii :=
  digits_aux (S (Z.to_nat (Z.log2 n))) n [].

(** The integer a digit string denotes. *)
Definition digits_value (ds : list ascii) : Z :=
  fold_left (fun a c => 10 * a + digit_val c) ds 0.

Definition all_digits (ds : list ascii) : Prop :=
  Forall (fun c => is_digit c = true) ds.

(** *** Abrupt completions *)

Inductive error : Type := RangeError | TypeError.

Inductive completion (A : Type) : Type :=
| Normal (a : A)
| Throw (e : error).
Arguments Normal {A} a.
Arguments Throw {A} e.

Definition bind {A B : Type} (c : completion A) (k : A -> completion B)
  : completion B :=
  match c with
  | Normal a => k a
  | Throw e => Throw e
  end.

Notation "'let*' x ':=' c 'in' k" := (bind c (fun x => k))
  (at level 10, x name, c at level 100, k at level 200).

(** *** Number::toString, on the values toFixed passes to it *)

(** [10^21 <= m * 2^e]. *)
Definition ge_1e21 (m : positive) (e : Z) : bool :=
  match e with
  | Z0 => 10 ^ 21 <=? Zpos m
  | Zpos k => 10 ^ 21 <=? Zpos m * Z.pow_pos 2 k
  | Zneg k => 10 ^ 21 * Z.pow_pos 2 k <=? Zpos m
  end.

(** The integer part of [m * 2^e]; a binary64 value at or above 2^53 is
    that integer. *)
Definition integral (m : positive) (e : Z) : Z :=
  match e with
  | Z0 => Zpos m
  | Zpos k => Zpos m * Z.pow_pos 2 k
  | Zneg k => Zpos m / Z.pow_pos 2 k
  end.

(** The candidates [(s, n)] with [k] digits: [10^(k-1) <= s < 10^k] and
    the Number value of [s * 10^(n-k)] is [x]. *)
Definition candidates (x : number) (X : Z) (d k : Z) : list (Z * Z) :=
  let try n :=
    let t := n - k in
    let s0 := X / 10 ^ t in
    filter (fun sn : Z * Z =>
              let s := fst sn in
              (10 ^ (k - 1) <=? s) && (s <? 10 ^ k) &&
              match SFcompare (of_Z (s * 10 ^ t)) x with
              | Some Eq => true
              | _ => false
              end)
           [(s0, n); (s0 + 1, n)] in
  try d ++ try (d + 1).

(** Among candidates, the one whose value is closest to [X]; of two equally
    close, the even one. *)
Definition closer (X k : Z) (a b : Z * Z) : Z * Z :=
  let dist sn := Z.abs (fst sn * 10 ^ (snd sn - k) - X) in
  match dist a ?= dist b with
  | Lt => a
  | Gt => b
  | Eq => if Z.even (fst a) then a else b
  end.

Fixpoint shortest (fuel : nat) (x : number) (X d k : Z) : Z * Z * Z :=
  match fuel with
  | O => (d, d, X)
  | S fuel' =>
      match candidates x X d k with
      | c :: cs => let '(s, n) := fold_left (closer X k) cs c in (n, k, s)
      | [] => shortest fuel' x X d (k + 1)
      end
  end.

(** Number::toString(x, 10) for a finite [x = m * 2^e >= 10^21]: integers
    [n], [k], [s] with [k] as small as possible, then the digits of [s]
    followed by zeroes when [n <= 21], and scientific notation otherwise. *)
Definition toString_large (m : positive) (e : Z) : list ascii :=
  let x := S754_finite false m e in
  let X := integral m e in
  let d := Z.of_nat (List.length (decimal_digits X)) in
  let '(n, k, s) := shortest (Z.to_nat d) x X d 1 in
  let ds := decimal_digits s in
  if n <=? 21 then
    ds ++ repeat "0"%char (Z.to_nat (n - k))
  else
    let mant :=
      match ds with
      | [] | [_] => ds
      | c :: rest => c :: "."%char :: rest
      end in
    mant ++ "e"%char :: "+"%char :: decimal_digits (n - 1).

(** *** Number.prototype.toFixed *)

(** The integer [n] for which [n / 10^f - m * 2^e] is as close to zero as
    possible; of two such [n], the larger. *)
Definition nearest_scaled (f : Z) (m : positive) (e : Z) : Z :=
  let num := Zpos m * 10 ^ f in
  match e with
  | Z0 => num
  | Zpos k => num * Z.pow_pos 2 k
  | Zneg k => (2 * num + Z.pow_pos 2 k) / (2 * Z.pow_pos 2 k)
  end.

(** Steps 11.a-11.c of toFixed: the digits of [n], padded with zeroes to
    [f + 1] characters, with a point before the last [f]. *)
Definition fixed_notation (f : Z) (n : Z) : list ascii :=
  let m := if n =? 0 then ["0"%char] else decimal_digits n in
  if f =? 0 then m
  else
    let k := Z.of_nat (List.length m) in
    let m := if k <=? f then repeat "0"%char (Z.to_nat (f + 1 - k)) ++ m else m in
    let k := if k <=? f then f + 1 else k in
    let a := firstn (Z.to_nat (k - f)) m in
    let b := skipn (Z.to_nat (k - f)) m in
    a ++ "."%char :: b.

(** What [toFixed] writes for a value in fixed notation: sign, integer
    digits [a], point, fraction digits [b]. *)
Definition fixed_string (s : bool) (a b : list ascii) : string :=
  string_of_list_ascii ((if s then ["-"%char] else []) ++ a ++ "."%char :: b).

Definition toFixed (fractionDigits : Z) (x : number) : completion string :=
  let f := fractionDigits in
  if (f <? 0) || (100 <? f) then Throw RangeError
  else
    match x with
    | S754_nan => Normal "NaN"%string
    | S754_infinity s => Normal (if s then "-Infinity" else "Infinity")%string
    | S754_zero _ => Normal (string_of_list_ascii (fixed_notation f 0))
    | S754_finite s m e =>
        let sign := if s then ["-"%char] else [] in
        let body :=
          if ge_1e21 m e then toString_large m e
          else fixed_notation f (nearest_scaled f m e) in
        Normal (string_of_list_ascii (sign ++ body))
    end.

(** *** Number(string): StringToNumber on decimal literals *)

Fixpoint span_digits (cs : list ascii) : list ascii * list ascii :=
  match cs with
  | c :: cs' =>
      if is_digit c then let '(ds, rest) := span_digits cs' in (c :: ds, rest)
      else ([], cs)
  | [] => ([], [])
  end.

(** An optional sign. *)
Definition take_sign (cs : list ascii) : bool * list ascii :=
  match cs with
  | c :: cs' =>
      if (c =? "-")%char then (true, cs')
      else if (c =? "+")%char then (false, cs')
      else (false, cs)
  | [] => (false, cs)
  end.

(** ExponentPart, when present: the signed decimal exponent. *)
Definition exponent_part (cs : list ascii) : option Z :=
  match cs with
  | [] => Some 0
  | c :: cs' =>
      if (c =? "e")%char || (c =? "E")%char then
        let '(s, cs'') := take_sign cs' in
        match span_digits cs'' with
        | ([], _) => None
        | (ds, []) => Some (if s then - digits_value ds else digits_value ds)
        | _ => None
        end
      else None
  end.

(** StrUnsignedDecimalLiteral other than Infinity: the digits as an
    integer [n] and a decimal exponent [e], the literal denoting
    [n * 10^e]. *)
Definition unsigned_decimal (cs : list ascii) : option (Z * Z) :=
  let '(ip, rest) := span_digits cs in
  let '(fp, rest') :=
    match rest with
    | c :: r => if (c =? ".")%char then span_digits r else ([], rest)
    | [] => ([], rest)
    end in
  match ip, fp with
  | [], [] => None
  | _, _ =>
      match exponent_part rest' with
      | Some e => Some (digits_value (ip ++ fp), e - Z.of_nat (List.length fp))
      | None => None
      end
  end.

Inductive literal : Type :=
| LitInfinity (s : bool)
| LitDecimal (s : bool) (n : Z) (e : Z).

(** StrDecimalLiteral: sign, digits and exponent of the string, if it is
    one. *)
Definition parse_decimal (str : string) : option literal :=
  let '(s, cs) := take_sign (list_ascii_of_string str) in
  match unsigned_decimal cs with
  | Some (n, e) => Some (LitDecimal s n e)
  | None =>
      if (string_of_list_ascii cs =? "Infinity")%string
      then Some (LitInfinity s)
      else None
  end.

(** [Number(str)]: the Number value nearest to the mathematical value of
    the literal, [+0] for the empty string, NaN for a string that is not a
    numeric literal. White space and the hexadecimal, octal and binary
    forms are not modelled; toFixed produces none. *)
Definition Number_of_string (str : string) : number :=
  if (str =? "")%string then S754_zero false
  else
    match parse_decimal str with
    | Some (LitInfinity s) => S754_infinity s
    | Some (LitDecimal s n e) => of_decimal s n e
    | None => NaN
    end.

(** The mathematical value of a decimal string. *)
Definition Qpow10 (e : Z) : Q :=
  match e with
  | Z0 => 1%Q
  | Zpos k => inject_Z (Z.pow_pos 10 k)
  | Zneg k => (1 # Pos.pow 10 k)%Q
  end.

Definition decimal_value (str : string) : option Q :=
  match parse_decimal str with
  | Some (LitDecimal s n e) =>
      Some (inject_Z (if s then - n else n) * Qpow10 e)%Q
  | _ => None
  end.

End JS.

(** ** The dashboard's data and functions *)

Import JS.
Local Open Scope string_scope.

(** [type Region = typeof regions[number]]: the union of the seven string
    literals of [regions]. *)
Inductive Region : Type :=
| Global | NorthAmerica | Europe | Asia | Africa | SouthAmerica | Oceania.

(** The string a [Region] value is. *)
Definition region_name (r : Region) : string :=
  match r with
  | Global => "Global"
  | NorthAmerica => "North America"
  | Europe => "Europe"
  | Asia => "Asia"
  | Africa => "Africa"
  | SouthAmerica => "South America"
  | Oceania => "Oceania"
  end.

Definition all_regions : list Region :=
  [Global; NorthAmerica; Europe; Asia; Africa; SouthAmerica; Oceania].

Definition regions : list string :=
  [ "Global"; "North America"; "Europe"; "Asia"; "Africa"; "South America";
    "Oceania" ].

Module Factors.
Record t : Type := Build
  { temperature : number;
    precipitation : number;
    seaLevel : number;
    extremeEvents : number }.
End Factors.

Module Point.
Record t : Type := Build { year : number; temperature : number }.
End Point.

Module CO2.
Record t : Type := Build { year : number; level : number }.
End CO2.

Module Metrics.
Record t : Type := Build
  { temperature : string;
    precipitation : string;
    seaLevel : string;
    extremeEvents : string }.
End Metrics.

(** An object literal: its properties in source order. Reading a property
    gives the value of its last definition, [None] (undefined) when there is
    none. *)
Definition object (A : Type) : Type := list (string * A).

Definition get {A : Type} (obj : object A) (key : string) : option A :=
  fold_left (fun found kv => if fst kv =? key then Some (snd kv) else found)
            obj None.

(** Reading a property of [undefined] throws a TypeError. *)
Definition defined {A : Type} (v : option A) : completion A :=
  match v with
  | Some a => Normal a
  | None => Throw TypeError
  end.

(** Region-specific multipliers for climate impacts. *)
Definition regionalFactors : object Factors.t :=
  [ ("Global", Factors.Build (of_Z 1) (of_Z 1) (of_Z 1) (of_Z 1));
    ("North America",
     Factors.Build (lit 12 1) (lit 13 1) (lit 8 1) (lit 11 1));
    ("Europe", Factors.Build (lit 11 1) (lit 12 1) (lit 9 1) (lit 12 1));
    ("Asia", Factors.Build (lit 13 1) (lit 14 1) (lit 12 1) (lit 13 1));
    ("Africa", Factors.Build (lit 14 1) (lit 7 1) (lit 11 1) (lit 14 1));
    ("South America",
     Factors.Build (lit 11 1) (lit 15 1) (lit 10 1) (lit 12 1));
    ("Oceania", Factors.Build (lit 12 1) (lit 9 1) (lit 13 1) (lit 11 1)) ].

(** Base historical data. *)
Definition baseHistoricalData : list Point.t :=
  [ Point.Build (of_Z 1900) (SFopp (lit 2 1));
    Point.Build (of_Z 1950) (of_Z 0);
    Point.Build (of_Z 2000) (lit 5 1);
    Point.Build (of_Z 2023) (lit 11 1);
    Point.Build (of_Z 2030) (lit 13 1);
    Point.Build (of_Z 2040) (lit 14 1);
    Point.Build (of_Z 2050) (lit 16 1) ].

Definition co2Data : list CO2.t :=
  [ CO2.Build (of_Z 1900) (of_Z 295);
    CO2.Build (of_Z 1950) (of_Z 310);
    CO2.Build (of_Z 2000) (of_Z 370);
    CO2.Build (of_Z 2023) (of_Z 420);
    CO2.Build (of_Z 2030) (of_Z 450);
    CO2.Build (of_Z 2040) (of_Z 490);
    CO2.Build (of_Z 2050) (of_Z 530) ].

(** [Array.prototype.map] with a callback that may throw. *)
Fixpoint array_map {A B : Type} (f : A -> completion B) (l : list A)
  : completion (list B) :=
  match l with
  | [] => Normal []
  | a :: l' =>
      let* b := f a in
      let* bs := array_map f l' in
      Normal (b :: bs)
  end.

(** Calculate region-specific historical data. *)
Definition getRegionalHistoricalData (region : Region)
  : completion (list Point.t) :=
  let* factors := defined (get regionalFactors (region_name region)) in
  let factor := Factors.temperature factors in
  array_map
    (fun data =>
       let* fixed := toFixed 2 (mul (Point.temperature data) factor) in
       Normal (Point.Build (Point.year data) (Number_of_string fixed)))
    baseHistoricalData.

Definition calculateMetrics (year : number) (region : Region)
  : completion Metrics.t :=
  let baseYear := of_Z 2023 in
  let yearDiff := sub year baseYear in
  let* factors := defined (get regionalFactors (region_name region)) in
  (* Base calculations *)
  let baseTempIncrease :=
    add (lit 11 1)
        (div (mul yearDiff (sub (lit 16 1) (lit 11 1)))
             (sub (of_Z 2050) (of_Z 2023))) in
  let basePrecipChange :=
    div (mul yearDiff (lit 53 1)) (sub (of_Z 2050) (of_Z 2023)) in
  let baseSeaLevelRise :=
    div (mul yearDiff (lit 263 1)) (sub (of_Z 2050) (of_Z 2023)) in
  let baseExtremeEvents :=
    div (mul yearDiff (of_Z 32)) (sub (of_Z 2050) (of_Z 2023)) in
  (* Apply regional factors *)
  let* temperature :=
    toFixed 1 (mul baseTempIncrease (Factors.temperature factors)) in
  let* precipitation :=
    toFixed 1 (mul basePrecipChange (Factors.precipitation factors)) in
  let* seaLevel :=
    toFixed 1 (mul baseSeaLevelRise (Factors.seaLevel factors)) in
  let* extremeEvents :=
    toFixed 1 (mul baseExtremeEvents (Factors.extremeEvents factors)) in
  Normal (Metrics.Build temperature precipitation seaLevel extremeEvents).

(** What one render of [ClimateAIDashboard] hands to its widgets, as a
    function of the two pieces of state. *)
Module View.
Record t : Type := Build
  { regionOptions : list string;
    metrics : Metrics.t;
    lineChartData : list Point.t;
    areaChartData : list CO2.t }.
End View.

Definition ClimateAIDashboard (selectedRegion : Region) (selectedYear : number)
  : completion View.t :=
  let* metrics := calculateMetrics selectedYear selectedRegion in
  let* historicalData := getRegionalHistoricalData selectedRegion in
  Normal (View.Build regions metrics historicalData co2Data).

(** ** The specification's reading of the two functions *)

Module Spec.

(** The formulas of the metric projector, as the specification writes
    them. *)
Definition yearDiff (year : number) : number := sub year (of_Z 2023).

Definition baseTemp (year : number) : number :=
  add (lit 11 1)
      (div (mul (yearDiff year) (sub (lit 16 1) (lit 11 1)))
           (sub (of_Z 2050) (of_Z 2023))).

Definition basePrecip (year : number) : number :=
  div (mul (yearDiff year) (lit 53 1)) (sub (of_Z 2050) (of_Z 2023)).

Definition baseSeaLevel (year : number) : number :=
  div (mul (yearDiff year) (lit 263 1)) (sub (of_Z 2050) (of_Z 2023)).

Definition baseExtreme (year : number) : number :=
  div (mul (yearDiff year) (of_Z 32)) (sub (of_Z 2050) (of_Z 2023)).

(** "Formatted with exactly [f] digits after the decimal point": an
    optional minus sign, at least one digit, a point, [f] digits. *)
Definition fraction_digits (f : nat) (s : string) : bool :=
  let cs := list_ascii_of_string s in
  let cs :=
    match cs with
    | c :: r => if (c =? "-")%char then r else cs
    | [] => cs
    end in
  match span_digits cs with
  | ([], _) => false
  | (_, c :: frac) =>
      (c =? ".")%char && forallb is_digit frac && (List.length frac =? f)%nat
  | (_, []) => false
  end.

(** The values toFixed writes in fixed notation: finite, of magnitude below
    10^21. *)
Definition fixed_range (v : number) : Prop :=
  is_finite v = true /\ (Qabs (R v) < inject_Z (10 ^ 21))%Q.

(** [s] denotes a decimal within half a unit of its [f]-th place of [v]. *)
Definition rounds_to (f : Z) (v : number) (s : string) : Prop :=
  exists q : Q,
    decimal_value s = Some q /\ (Qabs (q - R v) * Qpow10 f <= 1 # 2)%Q.

(** [s] writes [v] with exactly one digit after the decimal point. *)
Definition one_decimal (v : number) (s : string) : Prop :=
  fraction_digits 1 s = true /\ rounds_to 1 v s.

(** [s] is [v.toFixed(1)]: one digit after the decimal point when [v] is
    in the range of fixed notation, and only then. *)
Definition formatted (v : number) (s : string) : Prop :=
  toFixed 1 v = Normal s /\
  (fixed_range v -> one_decimal v s) /\
  (~ fixed_range v -> fraction_digits 1 s = false).

(** The four projections for [year] under the factors [f], base value
    times matching factor. *)
Definition scaled (year : number) (f : Factors.t) : list number :=
  [ mul (baseTemp year) (Factors.temperature f);
    mul (basePrecip year) (Factors.precipitation f);
    mul (baseSeaLevel year) (Factors.seaLevel f);
    mul (baseExtreme year) (Factors.extremeEvents f) ].

Definition fields (m : Metrics.t) : list string :=
  [ Metrics.temperature m; Metrics.precipitation m; Metrics.seaLevel m;
    Metrics.extremeEvents m ].

(** "Rounded to [d] decimal digits": the Number nearest to the multiple of
    [10^-d] nearest to [x], halves away from zero. *)
Definition round_to_decimals (d : positive) (x : number) : number :=
  match x with
  | S754_finite s _ _ =>
      of_decimal s (Qfloor (Qabs (R x) * Qpow10 (Zpos d) + (1 # 2))) (Zneg d)
  | S754_zero _ => S754_zero false
  | _ => x
  end.

(** The historical-data transformer: the base sequence with each
    temperature multiplied by the factor and rounded to 2 decimal digits. *)
Definition historicalTransform (factor : number) : list Point.t :=
  map (fun p =>
         Point.Build (Point.year p)
                     (round_to_decimals 2 (mul (Point.temperature p) factor)))
      baseHistoricalData.

(** A positive real number. *)
Definition positive_real (v : number) : Prop :=
  is_finite v = true /\ ltb (of_Z 0) v = true.

(** Non-decreasing for [<=] on Numbers. *)
Definition non_decreasing (l : list number) : Prop :=
  StronglySorted (fun a b => leb a b = true) l.

End Spec.

(** [x] is finite and of magnitude below [2^D]. *)
Definition lt_pow2 (D : Z) (x : number) : Prop :=
  match x with
  | S754_zero _ => True
  | S754_finite _ m e => (Zpos m < 2 ^ (D - e))%Z
  | _ => False
  end.

(** [x] has sign [s] and magnitude at least [2^L]; it may be infinite. *)
Definition ge_pow2 (L : Z) (s : bool) (x : number) : Prop :=
  match x with
  | S754_finite s' m e => s' = s /\ (2 ^ (L - e) <= Zpos m)%Z
  | S754_infinity s' => s' = s
  | _ => False
  end.

(** A decidable form of [Spec.fixed_range]. *)
Definition in_fixed_range (v : number) : bool :=
  match v with
  | S754_zero _ => true
  | S754_finite _ m e => negb (ge_1e21 m e)
  | _ => false
  end.

(** All four factors are below 2. *)
Definition factors_below_2 (f : Factors.t) : Prop :=
  lt_pow2 1 (Factors.temperature f) /\
  lt_pow2 1 (Factors.precipitation f) /\
  lt_pow2 1 (Factors.seaLevel f) /\
  lt_pow2 1 (Factors.extremeEvents f).

(** The supported years of the range control, 2023 to 2050. *)
Definition supported_years : list Z := map Z.of_nat (seq 2023 28).

(** The decimal value of the temperature projected for [year] in [r]. *)
Definition temperature_value (year : Z) (r : Region) : option Q :=
  match calculateMetrics (of_Z year) r with
  | Normal m => decimal_value (Metrics.temperature m)
  | Throw _ => None
  end.

(** The projected temperatures of [r] over the supported years. *)
Definition temperature_series (r : Region) : list (Z * option Q) :=
  map (fun y => (y, temperature_value y r)) supported_years.

Definition option_Qle (a b : option Q) : bool :=
  match a, b with
  | Some q1, Some q2 => Qle_bool q1 q2
  | _, _ => false
  end.

(** Every entry is at most each entry of a later or equal year. *)
Definition series_monotone (l : list (Z * option Q)) : bool :=
  forallb (fun a =>
    forallb (fun b => (fst b <? fst a)%Z || option_Qle (snd a) (snd b)) l) l.

(** ** The rest of the component *)

(** *** The four metrics, by name *)

Inductive metric : Type := Temperature | Precipitation | SeaLevel | ExtremeEvents.

Definition all_metrics : list metric :=
  [Temperature; Precipitation; SeaLevel; ExtremeEvents].

Definition factor_of (k : metric) (f : Factors.t) : number :=
  match k with
  | Temperature => Factors.temperature f
  | Precipitation => Factors.precipitation f
  | SeaLevel => Factors.seaLevel f
  | ExtremeEvents => Factors.extremeEvents f
  end.

Definition field_of (k : metric) (m : Metrics.t) : string :=
  match k with
  | Temperature => Metrics.temperature m
  | Precipitation => Metrics.precipitation m
  | SeaLevel => Metrics.seaLevel m
  | ExtremeEvents => Metrics.extremeEvents m
  end.

(** The decimal value of metric [k] projected for [year] in [r]. *)
Definition metric_value (k : metric) (year : Z) (r : Region) : option Q :=
  match calculateMetrics (of_Z year) r with
  | Normal m => decimal_value (field_of k m)
  | Throw _ => None
  end.

Definition metric_series (k : metric) (r : Region) : list (Z * option Q) :=
  map (fun y => (y, metric_value k y r)) supported_years.

(** The decimal [s1] denotes is at most the one [s2] denotes. *)
Definition field_le (s1 s2 : string) : Prop :=
  exists q1 q2 : Q,
    decimal_value s1 = Some q1 /\ decimal_value s2 = Some q2 /\ (q1 <= q2)%Q.

(** Entries of the same year are ordered from the first series to the
    second. *)
Definition series_le (sa sb : list (Z * option Q)) : bool :=
  forallb (fun a =>
    forallb (fun b => negb (fst a =? fst b)%Z || option_Qle (snd a) (snd b))
            sb) sa.

(** For metric [k]: whenever one Region's factor is at most another's, so
    is its series, year by year. *)
Definition factor_order_kept (k : metric) : bool :=
  let table :=
    map (fun r => (get regionalFactors (region_name r), metric_series k r))
        all_regions in
  forallb (fun a =>
    forallb (fun b =>
      match fst a, fst b with
      | Some fa, Some fb =>
          implb (leb (factor_of k fa) (factor_of k fb))
                (series_le (snd a) (snd b))
      | _, _ => false
      end) table) table.

(** An unsigned number with one digit after the point: a digit first, then
    the one-decimal format. *)
Definition unsigned_one_decimal (s : string) : bool :=
  match s with
  | String c _ => is_digit c && Spec.fraction_digits 1 s
  | EmptyString => false
  end.

(** All four fields projected for [year] in [r] are unsigned one-decimal
    numbers. *)
Definition metrics_unsigned (year : Z) (r : Region) : bool :=
  match calculateMetrics (of_Z year) r with
  | Normal m => forallb unsigned_one_decimal (Spec.fields m)
  | Throw _ => false
  end.

(** A negative number with one digit after the point: a minus sign first,
    then the one-decimal format. *)
Definition negative_one_decimal (s : string) : bool :=
  match s with
  | String c _ => (c =? "-")%char && Spec.fraction_digits 1 s
  | EmptyString => false
  end.

(** The integers from -4095 to 4095. *)
Definition small_years : list Z :=
  map (fun i => (Z.of_nat i - 4095)%Z) (seq 0 (Z.to_nat 8191)).

(** [year - 2023] is zero at 2023 only, and otherwise has the sign of the
    difference and magnitude at least 1. *)
Definition yearDiff_sign_ok (year : Z) : bool :=
  match Spec.yearDiff (of_Z year) with
  | S754_finite s m e =>
      Bool.eqb s (year <? 2023)%Z && (2 ^ (0 - e) <=? Zpos m)%Z
  | S754_zero _ => (year =? 2023)%Z
  | _ => false
  end.

(** The base temperature increase is below zero up to 1963 and above zero
    from 1964 on, of magnitude at least [2^-8] on either side. *)
Definition baseTemp_sign_ok (year : Z) : bool :=
  match Spec.baseTemp (of_Z year) with
  | S754_finite s m e =>
      Bool.eqb s (year <=? 1963)%Z && (2 ^ (-8 - e) <=? Zpos m)%Z
  | _ => false
  end.

(** All four factors are at least one half. *)
Definition factors_above_half (f : Factors.t) : Prop :=
  ge_pow2 (-1) false (Factors.temperature f) /\
  ge_pow2 (-1) false (Factors.precipitation f) /\
  ge_pow2 (-1) false (Factors.seaLevel f) /\
  ge_pow2 (-1) false (Factors.extremeEvents f).

(** *** The functions on the strings they receive at run time

    [Region] is erased at run time: the functions read
    [regionalFactors[region]] with whatever string they are handed. *)

Module Untyped.

Definition getRegionalHistoricalData (region : string)
  : completion (list Point.t) :=
  let* factors := defined (get regionalFactors region) in
  let factor := Factors.temperature factors in
  array_map
    (fun data =>
       let* fixed := toFixed 2 (mul (Point.temperature data) factor) in
       Normal (Point.Build (Point.year data) (Number_of_string fixed)))
    baseHistoricalData.

Definition calculateMetrics (year : number) (region : string)
  : completion Metrics.t :=
  let baseYear := of_Z 2023 in
  let yearDiff := sub year baseYear in
  let* factors := defined (get regionalFactors region) in
  let baseTempIncrease :=
    add (lit 11 1)
        (div (mul yearDiff (sub (lit 16 1) (lit 11 1)))
             (sub (of_Z 2050) (of_Z 2023))) in
  let basePrecipChange :=
    div (mul yearDiff (lit 53 1)) (sub (of_Z 2050) (of_Z 2023)) in
  let baseSeaLevelRise :=
    div (mul yearDiff (lit 263 1)) (sub (of_Z 2050) (of_Z 2023)) in
  let baseExtremeEvents :=
    div (mul yearDiff (of_Z 32)) (sub (of_Z 2050) (of_Z 2023)) in
  let* temperature :=
    toFixed 1 (mul baseTempIncrease (Factors.temperature factors)) in
  let* precipitation :=
    toFixed 1 (mul basePrecipChange (Factors.precipitation factors)) in
  let* seaLevel :=
    toFixed 1 (mul baseSeaLevelRise (Factors.seaLevel factors)) in
  let* extremeEvents :=
    toFixed 1 (mul baseExtremeEvents (Factors.extremeEvents factors)) in
  Normal (Metrics.Build temperature precipitation seaLevel extremeEvents).

End Untyped.

(** *** parseInt(string), radix omitted *)

(** White space stripped from the start (the ASCII members of the
    WhiteSpace and LineTerminator sets; strings here are byte strings). *)
Definition is_space (c : ascii) : bool :=
  let n := nat_of_ascii c in
  ((9 <=? n)%nat && (n <=? 13)%nat) || (n =? 32)%nat.

Fixpoint trim_start (cs : list ascii) : list ascii :=
  match cs with
  | c :: cs' => if is_space c then trim_start cs' else cs
  | [] => []
  end.

(** The value of a hexadecimal digit. *)
Definition hex_val (c : ascii) : option Z :=
  let n := nat_of_ascii c in
  if is_digit c then Some (Z.of_nat n - 48)
  else if (97 <=? n)%nat && (n <=? 102)%nat then Some (Z.of_nat n - 87)
  else if (65 <=? n)%nat && (n <=? 70)%nat then Some (Z.of_nat n - 55)
  else None.

(** The integer the longest prefix of hexadecimal digits denotes, [None]
    when that prefix is empty. *)
Fixpoint hex_prefix (cs : list ascii) (acc : option Z) : option Z :=
  match cs with
  | c :: cs' =>
      match hex_val c with
      | Some d =>
          hex_prefix cs' (Some (16 * match acc with Some a => a | None => 0 end
                                + d))
      | None => acc
      end
  | [] => acc
  end.

Definition parseInt (str : string) : number :=
  let trimmed := trim_start (list_ascii_of_string str) in
  let '(neg, body) := take_sign trimmed in
  let hex :=
    match body with
    | c0 :: x :: rest =>
        if (c0 =? "0")%char && ((x =? "x")%char || (x =? "X")%char)
        then Some rest else None
    | _ => None
    end in
  let mathInt :=
    match hex with
    | Some rest => hex_prefix rest None
    | None =>
        match fst (span_digits body) with
        | [] => None
        | ds => Some (digits_value ds)
        end
    end in
  match mathInt with
  | None => NaN
  | Some 0 => S754_zero neg
  | Some n => of_Z (if neg then - n else n)
  end.

(** *** The component's state, handlers and render *)

Module Component.

Record State : Type := Build
  { selectedRegion : string;
    selectedYear : number }.

(** [useState<Region>('Global')], [useState(2050)]. *)
Definition initialState : State := Build "Global" (of_Z 2050).

(** [onChange] of the select: [setSelectedRegion(e.target.value as Region)],
    an unchecked cast. *)
Definition onRegionChange (value : string) (st : State) : State :=
  Build value (selectedYear st).

(** [onChange] of the range input:
    [setSelectedYear(parseInt(e.target.value))]. *)
Definition onYearChange (value : string) (st : State) : State :=
  Build (selectedRegion st) (parseInt value).

Inductive event : Type :=
| RegionChange (value : string)
| YearChange (value : string).

Definition handle (st : State) (ev : event) : State :=
  match ev with
  | RegionChange value => onRegionChange value st
  | YearChange value => onYearChange value st
  end.

Definition run (evs : list event) : State := fold_left handle evs initialState.

(** The [value] props of the four metric cards, the options of the select,
    the [name] of the temperature line and the [data] of the two charts. *)
Record View : Type := BuildView
  { options : list string;
    temperatureCard : string;
    precipitationCard : string;
    seaLevelCard : string;
    extremeEventsCard : string;
    lineName : string;
    lineChartData : list Point.t;
    areaChartData : list CO2.t }.

Definition render (st : State) : completion View :=
  let* metrics :=
    Untyped.calculateMetrics (selectedYear st) (selectedRegion st) in
  let* historicalData :=
    Untyped.getRegionalHistoricalData (selectedRegion st) in
  Normal (BuildView
            regions
            ("+" ++ Metrics.temperature metrics ++ "°C")
            (Metrics.precipitation metrics ++ "%")
            ("+" ++ Metrics.seaLevel metrics ++ "cm")
            ("+" ++ Metrics.extremeEvents metrics ++ "%")
            (selectedRegion st ++ " Temperature")
            historicalData
            co2Data).

(** What the two controls can send: the select one of its options, the
    range input the decimal digits of an integer from [min] to [max]. *)
Definition offered (ev : event) : Prop :=
  match ev with
  | RegionChange value => In value regions
  | YearChange value =>
      exists y : Z,
        (2023 <= y <= 2050)%Z /\
        value = string_of_list_ascii (decimal_digits y)
  end.

(** The states the controls can reach. *)
Definition reachable (st : State) : Prop :=
  (exists r : Region, selectedRegion st = region_name r) /\
  (exists y : Z, (2023 <= y <= 2050)%Z /\ selectedYear st = of_Z y).

End Component.

(** Rational inequalities over explicit fractions, as integer ones. *)
Ltac Q_to_Z :=
  unfold Qle, Qlt, Qabs, Qminus, Qplus, Qopp, Qmult, inject_Z;
  cbn [Qnum Qden];
  rewrite ?Pos2Z.inj_mul, ?Pos2Z.inj_pow_pos;
  repeat match goal with
         | |- context [Z.neg ?m] => change (Z.neg m) with (- Z.pos m)%Z
         end.

(** ** Properties of the Number model *)

Local Open Scope list_scope.

(** *** Reference values

    The literals of the source as binary64 values, and the runtime methods
    on inputs whose results are known. *)

Example lit_1_1 : lit 11 1 = S754_finite false 4953959590107546 (-52).
Proof. reflexivity. Qed.

Example lit_1_6 : lit 16 1 = S754_finite false 7205759403792794 (-52).
Proof. reflexivity. Qed.

Example of_Z_2023 : of_Z 2023 = S754_finite false 8897248091963392 (-42).
Proof. reflexivity. Qed.

Example sub_1_6_1_1 : sub (lit 16 1) (lit 11 1) = lit 5 1.
Proof. reflexivity. Qed.

Example sub_2050_2023 : sub (of_Z 2050) (of_Z 2023) = of_Z 27.
Proof. reflexivity. Qed.

Example mul_1_1_1_3 :
  mul (lit 11 1) (lit 13 1) = S754_finite false 6440147467139810 (-52) /\
  lit 143 2 = S754_finite false 6440147467139809 (-52).
Proof. split; reflexivity. Qed.

Example literals_valid :
  forallb (valid_binary prec emax)
          ([ lit 11 1; lit 16 1; lit 53 1; lit 263 1; of_Z 32; of_Z 2023;
             of_Z 2050; of_Z (10 ^ 22) ]
           ++ flat_map (fun kv =>
                          [ Factors.temperature (snd kv);
                            Factors.precipitation (snd kv);
                            Factors.seaLevel (snd kv);
                            Factors.extremeEvents (snd kv) ])
                       regionalFactors
           ++ flat_map (fun p => [Point.year p; Point.temperature p])
                       baseHistoricalData
           ++ flat_map (fun p => [CO2.year p; CO2.level p]) co2Data) = true.
Proof. vm_compute. reflexivity. Qed.

Example toFixed_reference :
  map (fun fx => toFixed (fst fx) (snd fx))
      [ (1, lit 25 2); (1, lit 35 2); (2, lit 1005 3); (0, lit 25 1);
        (1, SFopp (lit 4 2)); (2, SFopp (lit 2 1)); (3, S754_zero true);
        (1, of_Z (10 ^ 21)); (1, of_Z (10 ^ 23)); (1, of_Z (2 ^ 1023));
        (1, of_Z (10 ^ 21 - 100000)); (1, Infinity); (1, NaN);
        (101, of_Z 1); (-1, of_Z 1) ]%Z =
  [ Normal "0.3"; Normal "0.3"; Normal "1.00"; Normal "3";
    Normal "-0.0"; Normal "-0.20"; Normal "0.000";
    Normal "1e+21"; Normal "1e+23"; Normal "8.98846567431158e+307";
    Normal "999999999999999868928.0"; Normal "Infinity"; Normal "NaN";
    Throw RangeError; Throw RangeError ]%string.
Proof. vm_compute. reflexivity. Qed.

Example Number_of_string_reference :
  map Number_of_string
      [ "1.43"; "-0.20"; "-0.00"; "1e+21"; ".5"; "5."; "1.5e-3";
        "-Infinity"; ""; "."; "1.5e"; "NaN" ]%string =
  [ lit 143 2; SFopp (lit 2 1); S754_zero true; of_Z (10 ^ 21); lit 5 1;
    of_Z 5; lit 15 4; S754_infinity true; S754_zero false; NaN; NaN; NaN ].
Proof. vm_compute. reflexivity. Qed.

(** *** Digit strings *)

Lemma digit_char_val (d : Z) :
  (0 <= d < 10)%Z -> digit_val (digit_char d) = d.
Proof.
  intros Hd. unfold digit_val, digit_char.
  rewrite nat_ascii_embedding by lia. lia.
Qed.

Lemma digit_char_is_digit (d : Z) :
  (0 <= d < 10)%Z -> is_digit (digit_char d) = true.
Proof.
  intros Hd. unfold is_digit, digit_char.
  rewrite nat_ascii_embedding by lia.
  apply andb_true_iff. split; apply Nat.leb_le; lia.
Qed.

Lemma digits_aux_digits (fuel : nat) :
  forall n acc,
    Forall (fun c => is_digit c = true) acc ->
    Forall (fun c => is_digit c = true) (digits_aux fuel n acc).
Proof.
  induction fuel as [ | fuel IH]; intros n acc Hacc; simpl.
  - exact Hacc.
  - assert (Hd : is_digit (digit_char (n mod 10)) = true)
      by (apply digit_char_is_digit; apply Z.mod_pos_bound; lia).
    destruct (n <? 10)%Z.
    + constructor; assumption.
    + apply IH. constructor; assumption.
Qed.

Lemma digits_aux_length (fuel : nat) :
  forall n acc, (List.length acc <= List.length (digits_aux fuel n acc))%nat.
Proof.
  induction fuel as [ | fuel IH]; intros n acc; simpl.
  - lia.
  - destruct (n <? 10)%Z; simpl.
    + lia.
    + specialize (IH (n / 10)%Z (digit_char (n mod 10) :: acc)).
      simpl in IH. lia.
Qed.

Lemma digits_value_from (ds : list ascii) :
  forall a,
    fold_left (fun a c => (10 * a + digit_val c)%Z) ds a =
    (a * 10 ^ Z.of_nat (List.length ds) + digits_value ds)%Z.
Proof.
  unfold digits_value.
  induction ds as [ | c ds IH]; intros a.
  - simpl. lia.
  - cbn [fold_left List.length]. rewrite IH. rewrite (IH (10 * 0 + digit_val c)%Z).
    rewrite Nat2Z.inj_succ, Z.pow_succ_r by lia. ring.
Qed.

Lemma digits_value_app (a b : list ascii) :
  digits_value (a ++ b) =
  (digits_value a * 10 ^ Z.of_nat (List.length b) + digits_value b)%Z.
Proof.
  unfold digits_value at 1. rewrite fold_left_app.
  rewrite digits_value_from. reflexivity.
Qed.

Lemma digits_value_cons (c : ascii) (ds : list ascii) :
  digits_value (c :: ds) =
  (digit_val c * 10 ^ Z.of_nat (List.length ds) + digits_value ds)%Z.
Proof.
  change (c :: ds) with ([c] ++ ds). rewrite digits_value_app.
  unfold digits_value at 1. simpl. reflexivity.
Qed.

Lemma digits_aux_value (fuel : nat) :
  forall n acc,
    (0 <= n < 2 ^ Z.of_nat fuel)%Z ->
    digits_value (digits_aux fuel n acc) =
    (n * 10 ^ Z.of_nat (List.length acc) + digits_value acc)%Z.
Proof.
  induction fuel as [ | fuel IH]; intros n acc Hn.
  - simpl in Hn. assert (n = 0%Z) by lia. subst n. simpl. reflexivity.
  - cbn [digits_aux].
    assert (Hmod : (0 <= n mod 10 < 10)%Z) by (apply Z.mod_pos_bound; lia).
    destruct (Z.ltb_spec n 10) as [Hlt | Hge].
    + rewrite digits_value_cons, digit_char_val by assumption.
      rewrite Z.mod_small by lia. reflexivity.
    + rewrite IH.
      * rewrite digits_value_cons, digit_char_val by assumption.
        cbn [List.length]. rewrite Nat2Z.inj_succ, Z.pow_succ_r by lia.
        rewrite (Z.div_mod n 10) at 3 by lia. ring.
      * rewrite Nat2Z.inj_succ, Z.pow_succ_r in Hn by lia.
        split; [apply Z.div_pos; lia | ].
        apply Z.div_lt_upper_bound; lia.
Qed.

Lemma decimal_digits_value (n : Z) :
  (0 <= n)%Z -> digits_value (decimal_digits n) = n.
Proof.
  intros Hn. unfold decimal_digits. rewrite digits_aux_value.
  - simpl. unfold digits_value. simpl. lia.
  - split; [exact Hn | ].
    destruct (Z.eq_dec n 0) as [-> | Hnz]; [reflexivity | ].
    rewrite Nat2Z.inj_succ, Z2Nat.id by apply Z.log2_nonneg.
    apply Z.log2_spec. lia.
Qed.

Lemma decimal_digits_digits (n : Z) :
  Forall (fun c => is_digit c = true) (decimal_digits n).
Proof. apply digits_aux_digits. constructor. Qed.

Lemma decimal_digits_nonempty (n : Z) :
  (1 <= List.length (decimal_digits n))%nat.
Proof.
  unfold decimal_digits. cbn [digits_aux].
  destruct (n <? 10)%Z.
  - simpl. lia.
  - pose proof (digits_aux_length (Z.to_nat (Z.log2 n)) (n / 10)%Z
                                  [digit_char (n mod 10)]) as H.
    simpl in H. exact H.
Qed.

Lemma span_digits_all (ds : list ascii) :
  Forall (fun c => is_digit c = true) ds ->
  forall c rest,
    is_digit c = false ->
    span_digits (ds ++ c :: rest) = (ds, c :: rest).
Proof.
  induction 1 as [ | d ds Hd Hds IH]; intros c rest Hc.
  - simpl. rewrite Hc. reflexivity.
  - simpl. rewrite Hd, IH by assumption. reflexivity.
Qed.

Lemma span_digits_end (ds : list ascii) :
  Forall (fun c => is_digit c = true) ds -> span_digits ds = (ds, []).
Proof.
  induction 1 as [ | d ds Hd Hds IH].
  - reflexivity.
  - simpl. rewrite Hd, IH. reflexivity.
Qed.

(** *** The shape of fixed notation *)

Lemma digits_value_zeroes (j : nat) : digits_value (repeat "0"%char j) = 0%Z.
Proof.
  induction j as [ | j IH]; [reflexivity | ].
  cbn [repeat]. rewrite digits_value_cons, IH. reflexivity.
Qed.

Lemma zeroes_digits (j : nat) : all_digits (repeat "0"%char j).
Proof. induction j; simpl; constructor; auto. Qed.

Lemma split_digits (m : list ascii) (j : nat) :
  all_digits m -> (1 <= j)%nat -> (j <= List.length m)%nat ->
  (1 <= List.length (firstn j m))%nat /\
  all_digits (firstn j m) /\
  all_digits (skipn j m) /\
  List.length (skipn j m) = (List.length m - j)%nat.
Proof.
  intros Hm Hj Hlen.
  rewrite <- (firstn_skipn j m) in Hm. apply Forall_app in Hm.
  rewrite length_firstn, length_skipn. repeat split; try tauto; lia.
Qed.

Lemma fixed_notation_shape (f n : Z) :
  (0 < f)%Z ->
  exists a b,
    fixed_notation f n = a ++ "."%char :: b /\
    (1 <= List.length a)%nat /\
    all_digits a /\ all_digits b /\
    List.length b = Z.to_nat f /\
    ((0 <= n)%Z -> digits_value (a ++ b) = n).
Proof.
  intros Hf. unfold fixed_notation.
  set (m0 := if (n =? 0)%Z then ["0"%char] else decimal_digits n).
  assert (Hd0 : all_digits m0).
  { unfold m0. destruct (n =? 0)%Z.
    - repeat constructor.
    - apply decimal_digits_digits. }
  assert (Hl0 : (1 <= List.length m0)%nat).
  { unfold m0. destruct (n =? 0)%Z.
    - simpl. lia.
    - apply decimal_digits_nonempty. }
  assert (Hv0 : (0 <= n)%Z -> digits_value m0 = n).
  { intros Hn. unfold m0. destruct (Z.eqb_spec n 0) as [-> | _].
    - reflexivity.
    - apply decimal_digits_value. exact Hn. }
  destruct (Z.eqb_spec f 0) as [Hf0 | _]; [lia | ].
  set (k := Z.of_nat (List.length m0)).
  destruct (Z.leb_spec k f) as [Hk | Hk].
  - set (m := repeat "0"%char (Z.to_nat (f + 1 - k)) ++ m0).
    assert (Hlen : List.length m = Z.to_nat (f + 1)).
    { unfold m. rewrite length_app, repeat_length. lia. }
    assert (Hm : all_digits m).
    { unfold m. apply Forall_app. split; [apply zeroes_digits | exact Hd0]. }
    destruct (split_digits m (Z.to_nat (f + 1 - f)) Hm) as (Ha & Hda & Hdb & Hb);
      [lia | lia | ].
    exists (firstn (Z.to_nat (f + 1 - f)) m), (skipn (Z.to_nat (f + 1 - f)) m).
    repeat split; try assumption.
    + lia.
    + intros Hn. rewrite firstn_skipn. unfold m.
      rewrite digits_value_app, digits_value_zeroes. rewrite Hv0 by exact Hn.
      lia.
  - destruct (split_digits m0 (Z.to_nat (k - f)) Hd0) as (Ha & Hda & Hdb & Hb);
      [lia | lia | ].
    exists (firstn (Z.to_nat (k - f)) m0), (skipn (Z.to_nat (k - f)) m0).
    repeat split; try assumption.
    + lia.
    + intros Hn. rewrite firstn_skipn. apply Hv0. exact Hn.
Qed.

Lemma digit_not_symbol (c : ascii) :
  is_digit c = true ->
  (c =? "-")%char = false /\ (c =? "+")%char = false /\
  (c =? ".")%char = false.
Proof.
  intros Hc.
  repeat split;
    match goal with
    | |- (c =? ?d)%char = false =>
        destruct (Ascii.eqb_spec c d) as [-> | _];
        [vm_compute in Hc; discriminate | reflexivity]
    end.
Qed.

Lemma fixed_string_fraction_digits (s : bool) (a b : list ascii) :
  (1 <= List.length a)%nat -> all_digits a -> all_digits b ->
  Spec.fraction_digits (List.length b) (fixed_string s a b) = true.
Proof.
  intros Hlen Ha Hb. unfold Spec.fraction_digits, fixed_string.
  rewrite list_ascii_of_string_of_list_ascii.
  assert (Hstrip :
            match (if s then ["-"%char] else []) ++ a ++ "."%char :: b with
            | c :: r =>
                if (c =? "-")%char
                then r
                else (if s then ["-"%char] else []) ++ a ++ "."%char :: b
            | [] => (if s then ["-"%char] else []) ++ a ++ "."%char :: b
            end = a ++ "."%char :: b).
  { destruct s; [reflexivity | ].
    destruct a as [ | c a]; [simpl in Hlen; lia | ].
    inversion Ha as [ | ? ? Hc ?]; subst.
    simpl. destruct (digit_not_symbol c Hc) as (-> & _). reflexivity. }
  rewrite Hstrip.
  rewrite span_digits_all by (assumption || reflexivity).
  destruct a as [ | c a]; [simpl in Hlen; lia | ].
  rewrite Nat.eqb_refl, andb_true_r. simpl.
  apply forallb_forall. apply Forall_forall. exact Hb.
Qed.

Lemma fixed_string_value (s : bool) (a b : list ascii) :
  (1 <= List.length a)%nat -> all_digits a -> all_digits b ->
  parse_decimal (fixed_string s a b) =
  Some (LitDecimal s (digits_value (a ++ b)) (- Z.of_nat (List.length b))).
Proof.
  intros Hlen Ha Hb. unfold parse_decimal, fixed_string.
  rewrite list_ascii_of_string_of_list_ascii.
  assert (Hsign :
            take_sign ((if s then ["-"%char] else []) ++ a ++ "."%char :: b) =
            (s, a ++ "."%char :: b)).
  { destruct s; [reflexivity | ].
    destruct a as [ | c a]; [simpl in Hlen; lia | ].
    inversion Ha as [ | ? ? Hc ?]; subst.
    simpl. destruct (digit_not_symbol c Hc) as (-> & -> & _). reflexivity. }
  rewrite Hsign. unfold unsigned_decimal.
  rewrite span_digits_all by (assumption || reflexivity).
  rewrite Ascii.eqb_refl, span_digits_end by assumption.
  destruct a as [ | c a]; [simpl in Hlen; lia | ].
  cbn [exponent_part]. reflexivity.
Qed.

(** *** The integer toFixed picks *)

Lemma pow_pos_positive (b : Z) (k : positive) :
  (0 < b)%Z -> (0 < Z.pow_pos b k)%Z.
Proof.
  intros Hb. change (Z.pow_pos b k) with (b ^ Zpos k)%Z.
  apply Z.pow_pos_nonneg; lia.
Qed.

Lemma nearest_scaled_nonneg (f : Z) (m : positive) (e : Z) :
  (0 <= f)%Z -> (0 <= nearest_scaled f m e)%Z.
Proof.
  intros Hf. unfold nearest_scaled.
  assert (HT : (0 < 10 ^ f)%Z) by (apply Z.pow_pos_nonneg; lia).
  destruct e as [ | k | k].
  - nia.
  - assert (0 < Z.pow_pos 2 k)%Z by (apply pow_pos_positive; lia). nia.
  - assert (0 < Z.pow_pos 2 k)%Z by (apply pow_pos_positive; lia).
    apply Z.div_pos; nia.
Qed.

Lemma nearest_scaled_close (p : positive) (s : bool) (m : positive) (e : Z) :
  let n := nearest_scaled (Zpos p) m e in
  (Qabs (inject_Z (if s then - n else n) * Qpow10 (Zneg p)
         - R (S754_finite s m e)) * Qpow10 (Zpos p) <= 1 # 2)%Q.
Proof.
  intros n.
  pose proof (nearest_scaled_nonneg (Zpos p) m e ltac:(lia)) as Hn.
  fold n in Hn. unfold nearest_scaled in n.
  change (10 ^ Zpos p)%Z with (Z.pow_pos 10 p) in n.
  assert (HT : (0 < Z.pow_pos 10 p)%Z) by (apply pow_pos_positive; lia).
  unfold R, Qpow10, Qpow2.
  destruct e as [ | k | k].
  - destruct s; Q_to_Z; subst n; nia.
  - assert (HP : (0 < Z.pow_pos 2 k)%Z) by (apply pow_pos_positive; lia).
    destruct s; Q_to_Z; subst n; nia.
  - assert (HP : (0 < Z.pow_pos 2 k)%Z) by (apply pow_pos_positive; lia).
    set (T := Z.pow_pos 10 p) in *. set (P := Z.pow_pos 2 k) in *.
    pose proof (Z.mul_div_le (2 * (Zpos m * T) + P) (2 * P) ltac:(lia)) as Hlo.
    pose proof (Z.mul_succ_div_gt (2 * (Zpos m * T) + P) (2 * P) ltac:(lia))
      as Hhi.
    fold n in Hlo, Hhi.
    destruct s; Q_to_Z; fold T; fold P; nia.
Qed.

Lemma fixed_range_below (s : bool) (m : positive) (e : Z) :
  Spec.fixed_range (S754_finite s m e) -> ge_1e21 m e = false.
Proof.
  intros [_ Hlt]. unfold ge_1e21.
  unfold R, Qpow2 in Hlt.
  destruct e as [ | k | k]; apply Z.leb_gt; revert Hlt;
    destruct s; Q_to_Z; lia.
Qed.

(** *** toFixed in fixed notation *)

Lemma toFixed_normal (f : Z) (x : number) :
  (0 <= f <= 100)%Z -> exists s, toFixed f x = Normal s.
Proof.
  intros [Hlo Hhi]. unfold toFixed.
  replace ((f <? 0)%Z || (100 <? f)%Z) with false.
  - destruct x; eexists; reflexivity.
  - symmetry. apply orb_false_iff. split; apply Z.ltb_ge; assumption.
Qed.

Lemma in_fixed_range_spec (v : number) :
  in_fixed_range v = true -> Spec.fixed_range v.
Proof.
  destruct v as [s | s | | s m e]; simpl; intros H; try discriminate.
  - split; [reflexivity | ]. simpl. reflexivity.
  - split; [reflexivity | ].
    apply negb_true_iff in H. unfold ge_1e21 in H.
    unfold R, Qpow2.
    destruct e as [ | k | k]; apply Z.leb_gt in H; revert H;
      destruct s; Q_to_Z; lia.
Qed.

Lemma toFixed_fixed (p : positive) (v : number) :
  (Zpos p <= 100)%Z -> Spec.fixed_range v ->
  exists s,
    toFixed (Zpos p) v = Normal s /\
    Spec.fraction_digits (Pos.to_nat p) s = true /\
    Spec.rounds_to (Zpos p) v s.
Proof.
  intros Hp Hr.
  assert (Hguard : (Zpos p <? 0)%Z || (100 <? Zpos p)%Z = false).
  { apply orb_false_iff. split; apply Z.ltb_ge; lia. }
  destruct v as [sz | si | | s m e].
  - destruct (fixed_notation_shape (Zpos p) 0 ltac:(lia))
      as (a & b & Hfn & Hla & Hda & Hdb & Hlb & Hval).
    exists (fixed_string false a b). split; [ | split].
    + unfold toFixed. rewrite Hguard, Hfn. reflexivity.
    + change (Pos.to_nat p) with (Z.to_nat (Zpos p)). rewrite <- Hlb.
      apply fixed_string_fraction_digits; assumption.
    + eexists. unfold decimal_value.
      rewrite fixed_string_value by assumption.
      split; [reflexivity | ].
      rewrite Hval, Hlb by lia. rewrite Z2Nat.id by lia.
      change (- Zpos p)%Z with (Zneg p). unfold Qpow10, R.
      Q_to_Z. lia.
  - destruct Hr as [Hfin _]. discriminate Hfin.
  - destruct Hr as [Hfin _]. discriminate Hfin.
  - destruct (fixed_notation_shape (Zpos p) (nearest_scaled (Zpos p) m e)
                                   ltac:(lia))
      as (a & b & Hfn & Hla & Hda & Hdb & Hlb & Hval).
    exists (fixed_string s a b). split; [ | split].
    + unfold toFixed.
      rewrite Hguard, (fixed_range_below s m e Hr), Hfn. reflexivity.
    + change (Pos.to_nat p) with (Z.to_nat (Zpos p)). rewrite <- Hlb.
      apply fixed_string_fraction_digits; assumption.
    + eexists. unfold decimal_value.
      rewrite fixed_string_value by assumption.
      split; [reflexivity | ].
      rewrite Hval, Hlb by (apply nearest_scaled_nonneg; lia).
      rewrite Z2Nat.id by lia.
      change (- Zpos p)%Z with (Zneg p).
      apply nearest_scaled_close.
Qed.

(** *** toFixed outside fixed notation *)

Lemma digits_then_letter (ds tail : list ascii) :
  forallb is_digit (ds ++ "e"%char :: tail) = false.
Proof. rewrite forallb_app. simpl. apply andb_false_r. Qed.

Lemma strip_minus (s : bool) (body : list ascii) :
  (forall c r, body = c :: r -> is_digit c = true) ->
  match (if s then ["-"%char] else []) ++ body with
  | c :: r =>
      if (c =? "-")%char then r else (if s then ["-"%char] else []) ++ body
  | [] => (if s then ["-"%char] else []) ++ body
  end = body.
Proof.
  intros Hhead. destruct s; [reflexivity | ].
  destruct body as [ | c r]; [reflexivity | ].
  simpl. destruct (digit_not_symbol c (Hhead c r eq_refl)) as (-> & _).
  reflexivity.
Qed.

Lemma toString_large_not_fixed (s : bool) (m : positive) (e : Z) (k : nat) :
  Spec.fraction_digits
    k (string_of_list_ascii
         ((if s then ["-"%char] else []) ++ toString_large m e)) = false.
Proof.
  unfold Spec.fraction_digits. rewrite list_ascii_of_string_of_list_ascii.
  unfold toString_large.
  destruct (shortest _ _ _ _ _) as [[n j] d].
  pose proof (decimal_digits_digits d) as Hd.
  pose proof (decimal_digits_nonempty d) as Hl.
  destruct (decimal_digits d) as [ | c rest]; [simpl in Hl; lia | ].
  inversion Hd as [ | ? ? Hc Hrest]; subst.
  destruct (n <=? 21)%Z.
  - rewrite strip_minus by (intros c' r' [= <- _]; exact Hc).
    rewrite span_digits_end.
    + reflexivity.
    + apply Forall_app. split; [exact Hd | apply zeroes_digits].
  - destruct rest as [ | c2 rest].
    + rewrite strip_minus by (intros c' r' [= <- _]; exact Hc).
      cbn [app span_digits]. rewrite Hc. reflexivity.
    + rewrite strip_minus by (intros c' r' [= <- _]; exact Hc).
      cbn [app span_digits]. rewrite Hc.
      change (is_digit ".") with false. cbn [Ascii.eqb Bool.eqb andb].
      change (c2 :: rest ++ "e"%char :: "+"%char :: decimal_digits (n - 1))
        with ((c2 :: rest) ++ "e"%char :: "+"%char :: decimal_digits (n - 1)).
      rewrite digits_then_letter. reflexivity.
Qed.

(** Outside the range of fixed notation [toFixed] does not write a point
    followed by digits only. *)
Lemma toFixed_not_fixed (f : Z) (v : number) (s : string) (k : nat) :
  toFixed f v = Normal s -> in_fixed_range v = false ->
  Spec.fraction_digits k s = false.
Proof.
  unfold toFixed. destruct ((f <? 0)%Z || (100 <? f)%Z); [discriminate | ].
  destruct v as [sz | si | | sv m e]; cbn [in_fixed_range];
    intros Hs Hr; try discriminate Hr.
  - injection Hs as <-. destruct si; reflexivity.
  - injection Hs as <-. reflexivity.
  - apply negb_false_iff in Hr. rewrite Hr in Hs. injection Hs as <-.
    apply toString_large_not_fixed.
Qed.

Lemma toFixed_formatted (v : number) :
  exists s, Spec.formatted v s.
Proof.
  destruct (toFixed_normal 1 v ltac:(lia)) as [s Hs].
  exists s. split; [exact Hs | ]. split.
  - intros Hr.
    destruct (toFixed_fixed 1 v ltac:(lia) Hr) as (s' & Hs' & Hfd & Hrt).
    rewrite Hs in Hs'. injection Hs' as <-.
    split; assumption.
  - intros Hr. apply (toFixed_not_fixed 1 v); [exact Hs | ].
    destruct (in_fixed_range v) eqn:Hb; [ | reflexivity].
    exfalso. apply Hr, in_fixed_range_spec, Hb.
Qed.

Lemma formatted_toFixed (v : number) (s : string) :
  toFixed 1 v = Normal s -> Spec.formatted v s.
Proof.
  intros Hs. destruct (toFixed_formatted v) as (s' & Hs' & Hfmt).
  rewrite Hs in Hs'. injection Hs' as <-.
  split; assumption.
Qed.

(** *** Number(x.toFixed(d)) *)

Lemma fixed_string_nonempty (s : bool) (a b : list ascii) :
  (fixed_string s a b =? "")%string = false.
Proof.
  unfold fixed_string. destruct s; [reflexivity | ].
  destruct a; reflexivity.
Qed.

Lemma Number_of_fixed_string (s : bool) (a b : list ascii) :
  (1 <= List.length a)%nat -> all_digits a -> all_digits b ->
  Number_of_string (fixed_string s a b) =
  of_decimal s (digits_value (a ++ b)) (- Z.of_nat (List.length b)).
Proof.
  intros Hlen Ha Hb. unfold Number_of_string.
  rewrite fixed_string_nonempty, fixed_string_value by assumption.
  reflexivity.
Qed.

Lemma nearest_scaled_floor (d : positive) (s : bool) (m : positive) (e : Z) :
  nearest_scaled (Zpos d) m e =
  Qfloor (Qabs (R (S754_finite s m e)) * Qpow10 (Zpos d) + (1 # 2)).
Proof.
  unfold nearest_scaled, R, Qpow10, Qpow2, Qfloor.
  change (10 ^ Zpos d)%Z with (Z.pow_pos 10 d).
  destruct e as [ | k | k]; destruct s;
    unfold Qabs, Qplus, Qmult, inject_Z; cbn [Qnum Qden];
    rewrite ?Pos2Z.inj_mul, ?Pos2Z.inj_pow_pos, ?Z.abs_mul;
    cbn [Z.abs];
    try rewrite (Z.abs_eq (Z.pow_pos 2 k))
      by (apply Z.lt_le_incl, pow_pos_positive; lia);
    rewrite ?Z.mul_1_r, ?Z.mul_1_l.
  1-4: apply Z.div_unique with (r := 1%Z); lia.
  all: f_equal; ring.
Qed.

(** Writing a Number in fixed notation with [d] digits and reading the
    string back rounds the Number to [d] decimal digits. *)
Lemma Number_toFixed_round (d : positive) (x : number) :
  (Zpos d <= 100)%Z -> Spec.fixed_range x ->
  exists s,
    toFixed (Zpos d) x = Normal s /\
    Number_of_string s = Spec.round_to_decimals d x.
Proof.
  intros Hd Hr.
  assert (Hguard : (Zpos d <? 0)%Z || (100 <? Zpos d)%Z = false).
  { apply orb_false_iff. split; apply Z.ltb_ge; lia. }
  destruct x as [sz | si | | s m e].
  - destruct (fixed_notation_shape (Zpos d) 0 ltac:(lia))
      as (a & b & Hfn & Hla & Hda & Hdb & Hlb & Hval).
    exists (fixed_string false a b). split.
    + unfold toFixed. rewrite Hguard, Hfn. reflexivity.
    + rewrite Number_of_fixed_string, Hval by (assumption || lia).
      reflexivity.
  - destruct Hr as [Hfin _]. discriminate Hfin.
  - destruct Hr as [Hfin _]. discriminate Hfin.
  - destruct (fixed_notation_shape (Zpos d) (nearest_scaled (Zpos d) m e)
                                   ltac:(lia))
      as (a & b & Hfn & Hla & Hda & Hdb & Hlb & Hval).
    exists (fixed_string s a b). split.
    + unfold toFixed.
      rewrite Hguard, (fixed_range_below s m e Hr), Hfn. reflexivity.
    + rewrite Number_of_fixed_string by assumption.
      rewrite Hval, Hlb by (apply nearest_scaled_nonneg; lia).
      rewrite Z2Nat.id by lia. change (- Zpos d)%Z with (Zneg d).
      unfold Spec.round_to_decimals.
      rewrite <- nearest_scaled_floor. reflexivity.
Qed.

(** *** Magnitude bounds through rounding *)

Lemma pow2_positive (k : Z) : (0 <= k)%Z -> (0 < 2 ^ k)%Z.
Proof. intros Hk. apply Z.pow_pos_nonneg; lia. Qed.

Lemma pow2_exponent_nonneg (m k : Z) : (0 <= m < 2 ^ k)%Z -> (0 <= k)%Z.
Proof.
  intros Hm. destruct (Z.lt_ge_cases k 0) as [Hneg | Hpos]; [ | exact Hpos].
  rewrite Z.pow_neg_r in Hm by exact Hneg. lia.
Qed.

Lemma pow2_exponent_pos (m k : Z) : (1 <= m < 2 ^ k)%Z -> (0 < k)%Z.
Proof.
  intros Hm. pose proof (pow2_exponent_nonneg m k ltac:(lia)) as Hk.
  destruct (Z.eq_dec k 0) as [-> | Hnz]; [ | lia].
  simpl in Hm. lia.
Qed.

Lemma pow2_le (a b : Z) : (0 <= a <= b)%Z -> (2 ^ a <= 2 ^ b)%Z.
Proof. intros Hab. apply Z.pow_le_mono_r; lia. Qed.

Lemma pow2_lt_weaken (m a b : Z) :
  (0 <= m < 2 ^ a)%Z -> (a <= b)%Z -> (m < 2 ^ b)%Z.
Proof.
  intros Hm Hab. pose proof (pow2_exponent_nonneg m a Hm) as Ha.
  pose proof (pow2_le a b ltac:(lia)). lia.
Qed.

Lemma div_pow2_lt (m a k : Z) :
  (0 <= m < 2 ^ a)%Z -> (0 <= k <= a)%Z ->
  (0 <= m / 2 ^ k < 2 ^ (a - k))%Z.
Proof.
  intros Hm Hk. pose proof (pow2_positive k ltac:(lia)) as Hpk.
  split; [apply Z.div_pos; lia | ].
  apply Z.div_lt_upper_bound; [exact Hpk | ].
  rewrite <- Z.pow_add_r by lia.
  replace (k + (a - k))%Z with a by lia. lia.
Qed.

Lemma digits2_pos_size (p : positive) : digits2_pos p = Pos.size p.
Proof. induction p; simpl; congruence. Qed.

Lemma Zdigits2_le (m k : Z) : (0 <= m < 2 ^ k)%Z -> (Zdigits2 m <= k)%Z.
Proof.
  intros Hm. pose proof (pow2_exponent_nonneg m k Hm) as Hk.
  destruct m as [ | p | p]; simpl; [exact Hk | | lia].
  rewrite digits2_pos_size.
  assert (Hlog : (Z.log2 (Zpos p) < k)%Z) by (apply Z.log2_lt_pow2; lia).
  destruct p; simpl in Hlog |- *; lia.
Qed.

Lemma shr_1_m (mrs : shr_record) :
  (0 <= shr_m mrs)%Z -> shr_m (shr_1 mrs) = (shr_m mrs / 2)%Z.
Proof.
  destruct mrs as [m r s]. cbn [shr_m]. intros Hm.
  destruct m as [ | p | p]; [reflexivity | | lia].
  destruct p as [p | p | ]; cbn [shr_1 shr_m].
  - rewrite Pos2Z.inj_xI. apply Z.div_unique with (r := 1%Z); lia.
  - rewrite Pos2Z.inj_xO. apply Z.div_unique with (r := 0%Z); lia.
  - reflexivity.
Qed.

Lemma iter_shr_1_m (p : positive) :
  forall mrs,
    (0 <= shr_m mrs)%Z ->
    shr_m (iter_pos shr_1 p mrs) = (shr_m mrs / 2 ^ Zpos p)%Z.
Proof.
  assert (Hnn : forall q mrs, (0 <= shr_m mrs)%Z ->
                              (0 <= shr_m mrs / 2 ^ Zpos q)%Z).
  { intros q mrs H. apply Z.div_pos; [exact H | apply pow2_positive; lia]. }
  pose proof (pow2_positive (Zpos p) ltac:(lia)) as Hpp.
  induction p as [p IH | p IH | ]; intros mrs Hm; cbn [iter_pos].
  - specialize (IH (pow2_positive (Zpos p) ltac:(lia))).
    pose proof (pow2_positive (Zpos p) ltac:(lia)) as Hp.
    assert (H1 : (0 <= shr_m (shr_1 mrs))%Z)
      by (rewrite shr_1_m by exact Hm; apply Z.div_pos; lia).
    rewrite IH by (rewrite IH by exact H1; apply Hnn; exact H1).
    rewrite IH by exact H1. rewrite shr_1_m by exact Hm.
    rewrite !Z.div_div by lia.
    f_equal. replace (Zpos p~1) with (1 + Zpos p + Zpos p)%Z by lia.
    rewrite !Z.pow_add_r by lia. change (2 ^ 1)%Z with 2%Z. ring.
  - specialize (IH (pow2_positive (Zpos p) ltac:(lia))).
    pose proof (pow2_positive (Zpos p) ltac:(lia)) as Hp.
    rewrite IH by (rewrite IH by exact Hm; apply Hnn; exact Hm).
    rewrite IH by exact Hm.
    rewrite Z.div_div by lia.
    f_equal. replace (Zpos p~0) with (Zpos p + Zpos p)%Z by lia.
    rewrite Z.pow_add_r by lia. reflexivity.
  - rewrite shr_1_m by exact Hm. reflexivity.
Qed.

Lemma shr_spec (mrs : shr_record) (e n : Z) :
  (0 <= shr_m mrs)%Z ->
  shr_m (fst (shr mrs e n)) = (shr_m mrs / 2 ^ Z.max 0 n)%Z /\
  snd (shr mrs e n) = (e + Z.max 0 n)%Z.
Proof.
  intros Hm. unfold shr. destruct n as [ | p | p]; cbn [fst snd].
  - simpl. rewrite Z.div_1_r. split; [reflexivity | lia].
  - rewrite iter_shr_1_m by exact Hm.
    replace (Z.max 0 (Zpos p)) with (Zpos p) by lia. split; reflexivity.
  - replace (Z.max 0 (Zneg p)) with 0%Z by lia.
    simpl. rewrite Z.div_1_r. split; [reflexivity | lia].
Qed.

Lemma shr_record_of_loc_m (m : Z) (l : location) :
  shr_m (shr_record_of_loc m l) = m.
Proof. destruct l as [ | [ | | ]]; reflexivity. Qed.

(** One pass of [shr_fexp] keeps a mantissa below [2^(D - e)] and raises
    the exponent no further than the format requires. *)
Lemma shr_fexp_bound (m e : Z) (l : location) (D : Z) :
  (0 <= m < 2 ^ (D - e))%Z -> (-1074 <= D)%Z ->
  let mrs_e := shr_fexp prec emax m e l in
  (0 <= shr_m (fst mrs_e) < 2 ^ (D - snd mrs_e))%Z /\
  (snd mrs_e <= Z.max e (Z.max (D - 53) (-1074)))%Z.
Proof.
  intros Hm HD mrs_e. unfold mrs_e, shr_fexp.
  set (n := (fexp prec emax (Zdigits2 m + e) - e)%Z).
  destruct (shr_spec (shr_record_of_loc m l) e n) as [Hsm He];
    [rewrite shr_record_of_loc_m; lia | ].
  rewrite Hsm, He, shr_record_of_loc_m.
  pose proof (Zdigits2_le m (D - e) Hm) as Hdig.
  pose proof (pow2_exponent_nonneg m (D - e) Hm) as HDe.
  assert (Hn : (e + Z.max 0 n <= Z.max e (Z.max (D - 53) (-1074)))%Z).
  { unfold n, fexp, emin, prec, emax. lia. }
  split; [ | exact Hn].
  replace (D - (e + Z.max 0 n))%Z with (D - e - Z.max 0 n)%Z by lia.
  apply div_pow2_lt; [exact Hm | lia].
Qed.

Lemma round_nearest_even_bounds (m : Z) (l : location) :
  (m <= round_nearest_even m l <= m + 1)%Z.
Proof.
  unfold round_nearest_even.
  destruct l as [ | [ | | ]]; try destruct (Z.even m); lia.
Qed.

(** Rounding a value below [2^D] gives a finite Number below [2^(D+1)]. *)
Lemma binary_round_aux_bound (s : bool) (m e : Z) (l : location) (D : Z) :
  (0 <= m < 2 ^ (D - e))%Z -> (-1074 <= D <= 970)%Z -> (e <= 971)%Z ->
  lt_pow2 (D + 1) (binary_round_aux prec emax s m e l).
Proof.
  intros Hm HD He. unfold binary_round_aux.
  pose proof (shr_fexp_bound m e l D Hm ltac:(lia)) as [Hm1 He1].
  destruct (shr_fexp prec emax m e l) as [mrs1 e1]. cbn [fst snd] in Hm1, He1.
  set (m2 := round_nearest_even (shr_m mrs1) (loc_of_shr_record mrs1)).
  pose proof (round_nearest_even_bounds (shr_m mrs1) (loc_of_shr_record mrs1))
    as Hr. fold m2 in Hr.
  assert (Hm2 : (0 <= m2 < 2 ^ (D + 1 - e1))%Z).
  { pose proof (pow2_exponent_nonneg _ _ Hm1) as Hk.
    replace (D + 1 - e1)%Z with (1 + (D - e1))%Z by lia.
    rewrite Z.pow_add_r by lia. change (2 ^ 1)%Z with 2%Z. lia. }
  pose proof (shr_fexp_bound m2 e1 loc_Exact (D + 1) Hm2 ltac:(lia))
    as [Hm3 He3].
  destruct (shr_fexp prec emax m2 e1 loc_Exact) as [mrs2 e2].
  cbn [fst snd] in Hm3, He3.
  destruct (shr_m mrs2) as [ | m3 | m3]; [exact I | | lia].
  replace (e2 <=? emax - prec)%Z with true
    by (symmetry; apply Z.leb_le; unfold emax, prec; lia).
  simpl. lia.
Qed.

(** *** Magnitude bounds through the operators *)

Lemma lt_pow2_mono (D D' : Z) (x : number) :
  lt_pow2 D x -> (D <= D')%Z -> lt_pow2 D' x.
Proof.
  destruct x as [s | s | | s m e]; simpl; try tauto.
  intros Hm HD. apply (pow2_lt_weaken _ (D - e)); lia.
Qed.

Lemma pow2_mul_lt (a b i j : Z) :
  (0 <= a < 2 ^ i)%Z -> (0 <= b < 2 ^ j)%Z -> (a * b < 2 ^ (i + j))%Z.
Proof.
  intros Ha Hb.
  pose proof (pow2_exponent_nonneg a i Ha).
  pose proof (pow2_exponent_nonneg b j Hb).
  rewrite Z.pow_add_r by lia. nia.
Qed.

Lemma pow2_scale_lt (a i j : Z) :
  (0 <= a < 2 ^ i)%Z -> (0 <= j)%Z -> (a * 2 ^ j < 2 ^ (i + j))%Z.
Proof.
  intros Ha Hj.
  pose proof (pow2_exponent_nonneg a i Ha).
  pose proof (pow2_positive j Hj).
  rewrite Z.pow_add_r by lia. nia.
Qed.

Lemma mul_bound (x y : number) (Dx Dy : Z) :
  lt_pow2 Dx x -> lt_pow2 Dy y -> (-1074 <= Dx + Dy <= 970)%Z ->
  lt_pow2 (Dx + Dy + 1) (mul x y).
Proof.
  destruct x as [sx | sx | | sx mx ex]; destruct y as [sy | sy | | sy my ey];
    simpl; try tauto.
  intros Hx Hy HD.
  pose proof (pow2_exponent_pos (Zpos mx) (Dx - ex) ltac:(lia)).
  pose proof (pow2_exponent_pos (Zpos my) (Dy - ey) ltac:(lia)).
  apply binary_round_aux_bound; [ | lia | lia].
  rewrite Pos2Z.inj_mul. split; [lia | ].
  replace (Dx + Dy - (ex + ey))%Z with ((Dx - ex) + (Dy - ey))%Z by lia.
  apply pow2_mul_lt; lia.
Qed.

Lemma shl_align_spec (mx : positive) (ex ex' : Z) :
  (snd (shl_align mx ex ex') <= ex)%Z /\
  Zpos (fst (shl_align mx ex ex')) =
    (Zpos mx * 2 ^ (ex - snd (shl_align mx ex ex')))%Z /\
  ((ex' <= ex)%Z -> snd (shl_align mx ex ex') = ex').
Proof.
  unfold shl_align. destruct (ex' - ex)%Z as [ | d | d] eqn:Hd; cbn [fst snd].
  - rewrite Z.sub_diag. simpl. lia.
  - rewrite Z.sub_diag. simpl. lia.
  - split; [lia | ]. split; [ | reflexivity].
    replace (ex - ex')%Z with (Zpos d) by lia.
    change (Pos.iter xO mx d) with (shift_pos d mx).
    rewrite shift_pos_correct. change (Z.pow_pos 2 d) with (2 ^ Zpos d)%Z.
    ring.
Qed.

Lemma binary_round_bound (s : bool) (p : positive) (e D : Z) :
  (Zpos p < 2 ^ (D - e))%Z -> (-1074 <= D <= 970)%Z -> (e <= 971)%Z ->
  lt_pow2 (D + 1) (binary_round prec emax s p e).
Proof.
  intros Hp HD He. unfold binary_round.
  pose proof (shl_align_spec p e (fexp prec emax (Zpos (digits2_pos p) + e)))
    as (Hez & Hmz & _).
  destruct (shl_align p e (fexp prec emax (Zpos (digits2_pos p) + e)))
    as [mz ez]. cbn [fst snd] in Hez, Hmz.
  apply binary_round_aux_bound; [ | lia | lia].
  rewrite Hmz. split; [lia | ].
  replace (D - ez)%Z with ((D - e) + (e - ez))%Z by lia.
  apply pow2_scale_lt; lia.
Qed.

Lemma binary_normalize_bound (m e D : Z) :
  (Z.abs m < 2 ^ (D - e))%Z -> (-1074 <= D <= 970)%Z -> (e <= 971)%Z ->
  lt_pow2 (D + 1) (binary_normalize prec emax m e false).
Proof.
  intros Hm HD He. destruct m as [ | p | p]; cbn [binary_normalize].
  - exact I.
  - apply binary_round_bound; assumption.
  - apply binary_round_bound; assumption.
Qed.

Lemma of_Z_bound (y K : Z) :
  (Z.abs y < 2 ^ K)%Z -> (K <= 970)%Z -> lt_pow2 (K + 1) (of_Z y).
Proof.
  intros Hy HK. pose proof (pow2_exponent_nonneg (Z.abs y) K ltac:(lia)).
  unfold of_Z. apply binary_normalize_bound; [ | lia | lia].
  rewrite Z.sub_0_r. exact Hy.
Qed.

Lemma aligned_lt (mx : positive) (ex ez D : Z) :
  (Zpos mx < 2 ^ (D - ex))%Z -> (ez <= ex)%Z ->
  (0 < Zpos (fst (shl_align mx ex ez)) < 2 ^ (D - ez))%Z.
Proof.
  intros Hx Hez.
  destruct (shl_align_spec mx ex ez) as (_ & Hm & Hs).
  rewrite Hm, (Hs Hez). 
  pose proof (pow2_positive (ex - ez) ltac:(lia)).
  split; [nia | ].
  replace (D - ez)%Z with ((D - ex) + (ex - ez))%Z by lia.
  apply pow2_scale_lt; lia.
Qed.

Lemma add_bound (x y : number) (D : Z) :
  lt_pow2 D x -> lt_pow2 D y -> (-1075 <= D <= 969)%Z ->
  lt_pow2 (D + 2) (add x y).
Proof.
  intros Hx Hy HD.
  destruct x as [sx | sx | | sx mx ex]; destruct y as [sy | sy | | sy my ey];
    try contradiction.
  - destruct sx, sy; exact I.
  - apply (lt_pow2_mono D); [exact Hy | lia].
  - apply (lt_pow2_mono D); [exact Hx | lia].
  - simpl in Hx, Hy. unfold add, SFadd.
    pose proof (pow2_exponent_pos (Zpos mx) (D - ex) ltac:(lia)).
    pose proof (aligned_lt mx ex (Z.min ex ey) D Hx ltac:(lia)) as Ha.
    pose proof (aligned_lt my ey (Z.min ex ey) D Hy ltac:(lia)) as Hb.
    replace (D + 2)%Z with ((D + 1) + 1)%Z by lia.
    apply binary_normalize_bound;
      change (IntDef.Z.min ex ey) with (Z.min ex ey); [ | lia | lia].
    replace (D + 1 - Z.min ex ey)%Z with (1 + (D - Z.min ex ey))%Z by lia.
    rewrite Z.pow_add_r by lia. change (2 ^ 1)%Z with 2%Z.
    unfold cond_Zopp. destruct sx, sy; lia.
Qed.

Lemma sub_bound (x y : number) (D : Z) :
  lt_pow2 D x -> lt_pow2 D y -> (-1075 <= D <= 969)%Z ->
  lt_pow2 (D + 2) (sub x y).
Proof.
  intros Hx Hy HD.
  destruct x as [sx | sx | | sx mx ex]; destruct y as [sy | sy | | sy my ey];
    try contradiction.
  - destruct sx, sy; exact I.
  - apply (lt_pow2_mono D (D + 2) (S754_finite (negb sy) my ey));
      [exact Hy | lia].
  - apply (lt_pow2_mono D); [exact Hx | lia].
  - simpl in Hx, Hy. unfold sub, SFsub.
    pose proof (pow2_exponent_pos (Zpos mx) (D - ex) ltac:(lia)).
    pose proof (aligned_lt mx ex (Z.min ex ey) D Hx ltac:(lia)) as Ha.
    pose proof (aligned_lt my ey (Z.min ex ey) D Hy ltac:(lia)) as Hb.
    replace (D + 2)%Z with ((D + 1) + 1)%Z by lia.
    apply binary_normalize_bound;
      change (IntDef.Z.min ex ey) with (Z.min ex ey); [ | lia | lia].
    replace (D + 1 - Z.min ex ey)%Z with (1 + (D - Z.min ex ey))%Z by lia.
    rewrite Z.pow_add_r by lia. change (2 ^ 1)%Z with 2%Z.
    unfold cond_Zopp. destruct sx, sy; lia.
Qed.

(** Division by [27 = 2050 - 2023]. *)
Lemma div_27_bound (x : number) (D : Z) :
  lt_pow2 D x -> (-1000 <= D <= 900)%Z ->
  lt_pow2 (D - 3) (div x (of_Z 27)).
Proof.
  intros Hx HD.
  change (of_Z 27) with (S754_finite false 7599824371187712 (-48)).
  destruct x as [sx | sx | | sx mx ex]; try contradiction; [exact I | ].
  simpl in Hx. unfold div, SFdiv, SFdiv_core_binary.
  set (my := 7599824371187712%positive).
  assert (Hmy : (2 ^ 52 <= Zpos my)%Z) by (unfold my; simpl; lia).
  change (Zdigits2 (Zpos my)) with 53%Z.
  set (e' := Z.min (fexp prec emax (Zdigits2 (Zpos mx) + ex - (53 + -48)))
                   (ex - -48)).
  set (m' := match (ex - -48 - e')%Z with
             | Zpos _ => Z.shiftl (Zpos mx) (ex - -48 - e')
             | Z0 => Zpos mx
             | Zneg _ => 0%Z
             end).
  pose proof (Zdigits2_le (Zpos mx) (D - ex) ltac:(lia)) as Hdig.
  pose proof (pow2_exponent_pos (Zpos mx) (D - ex) ltac:(lia)) as Hk.
  assert (He' : (e' <= ex + 48 /\ e' <= D - 4)%Z).
  { unfold e', fexp, emin, prec, emax.
    change (IntDef.Z.min) with Z.min. change (IntDef.Z.max) with Z.max. lia. }
  assert (Hm' : m' = (Zpos mx * 2 ^ (ex + 48 - e'))%Z).
  { unfold m'. replace (ex - -48 - e')%Z with (ex + 48 - e')%Z by lia.
    destruct (ex + 48 - e')%Z as [ | s | s] eqn:Hs.
    - simpl. lia.
    - rewrite Z.shiftl_mul_pow2 by lia. reflexivity.
    - lia. }
  assert (Hm'lt : (0 <= m' < 2 ^ (D + 48 - e'))%Z).
  { rewrite Hm'. pose proof (pow2_positive (ex + 48 - e') ltac:(lia)).
    split; [nia | ].
    replace (D + 48 - e')%Z with ((D - ex) + (ex + 48 - e'))%Z by lia.
    apply pow2_scale_lt; lia. }
  assert (Hq : (0 <= m' / Zpos my < 2 ^ (D - 4 - e'))%Z).
  { split; [apply Z.div_pos; lia | ].
    apply Z.le_lt_trans with (m' / 2 ^ 52)%Z.
    - apply Z.div_le_compat_l; [lia | ]. split; [apply pow2_positive; lia | lia].
    - replace (D - 4 - e')%Z with ((D + 48 - e') - 52)%Z by lia.
      apply div_pow2_lt; [exact Hm'lt | lia]. }
  unfold Z.div in Hq.
  destruct (Z.div_eucl m' (Zpos my)) as [q r]. cbn [fst] in Hq.
  replace (D - 3)%Z with ((D - 4) + 1)%Z by lia.
  apply binary_round_aux_bound; [exact Hq | lia | lia].
Qed.

Lemma lt_pow2_in_fixed_range (v : number) :
  lt_pow2 69 v -> in_fixed_range v = true.
Proof.
  destruct v as [s | s | | s m e]; cbn [lt_pow2 in_fixed_range]; try tauto.
  intros Hm. apply negb_true_iff. unfold ge_1e21.
  pose proof (pow2_exponent_pos (Zpos m) (69 - e) ltac:(lia)) as Hk.
  assert (H69 : (2 ^ 69 < 10 ^ 21)%Z) by reflexivity.
  destruct e as [ | k | k]; apply Z.leb_gt.
  - change (69 - 0)%Z with 69%Z in Hm. lia.
  - change (Z.pow_pos 2 k) with (2 ^ Zpos k)%Z.
    pose proof (pow2_scale_lt (Zpos m) (69 - Zpos k) (Zpos k) ltac:(lia)
                              ltac:(lia)) as Hlt.
    replace (69 - Zpos k + Zpos k)%Z with 69%Z in Hlt by lia. lia.
  - change (Z.pow_pos 2 k) with (2 ^ Zpos k)%Z.
    replace (69 - Zneg k)%Z with (69 + Zpos k)%Z in Hm by lia.
    rewrite Z.pow_add_r in Hm by lia.
    pose proof (pow2_positive (Zpos k) ltac:(lia)). nia.
Qed.

(** ** Properties of the dashboard *)

(** *** The factor table *)

Lemma get_regionalFactors (r : Region) :
  exists f, get regionalFactors (region_name r) = Some f.
Proof. destruct r; eexists; reflexivity. Qed.

Lemma all_regions_complete (r : Region) : In r all_regions.
Proof. destruct r; simpl; tauto. Qed.

Lemma regionalFactors_positive :
  Forall (fun kv : string * Factors.t =>
            Spec.positive_real (Factors.temperature (snd kv)) /\
            Spec.positive_real (Factors.precipitation (snd kv)) /\
            Spec.positive_real (Factors.seaLevel (snd kv)) /\
            Spec.positive_real (Factors.extremeEvents (snd kv)))
         regionalFactors.
Proof.
  unfold regionalFactors, Spec.positive_real.
  repeat (apply Forall_cons; [vm_compute; tauto | ]).
  apply Forall_nil.
Qed.

(** C8: each of the seven Regions is a key of the factor table exactly once
    (the keys are the entries of [regions], in order and without repeats),
    every one of the four factors of every entry is a positive real number,
    and the lookup succeeds on every Region. *)
Theorem C8_factor_table :
  regions = map region_name all_regions /\
  List.length regions = 7%nat /\
  map fst regionalFactors = regions /\
  (forall r : Region,
      count_occ string_dec (map fst regionalFactors) (region_name r) = 1%nat) /\
  Forall (fun kv : string * Factors.t =>
            Spec.positive_real (Factors.temperature (snd kv)) /\
            Spec.positive_real (Factors.precipitation (snd kv)) /\
            Spec.positive_real (Factors.seaLevel (snd kv)) /\
            Spec.positive_real (Factors.extremeEvents (snd kv)))
         regionalFactors /\
  (forall r : Region,
      exists f,
        get regionalFactors (region_name r) = Some f /\
        In (region_name r, f) regionalFactors).
Proof.
  split; [reflexivity | ].
  split; [reflexivity | ].
  split; [reflexivity | ].
  split; [intro r; destruct r; reflexivity | ].
  split; [exact regionalFactors_positive | ].
  intro r; destruct r; eexists; (split; [reflexivity | ]); simpl; tauto.
Qed.

(** *** The metric projector *)

Lemma calculateMetrics_normal (year : number) (r : Region) :
  exists m, calculateMetrics year r = Normal m.
Proof.
  destruct (get_regionalFactors r) as [f Hf].
  unfold calculateMetrics. rewrite Hf. cbn [defined bind].
  repeat match goal with
         | |- context [toFixed 1 ?v] =>
             let s := fresh "s" in
             let Hs := fresh "Hs" in
             destruct (toFixed_normal 1 v ltac:(lia)) as [s Hs];
             rewrite Hs; cbn [bind]
         end.
  eexists; reflexivity.
Qed.

Lemma getRegionalHistoricalData_normal (r : Region) :
  exists h, getRegionalHistoricalData r = Normal h.
Proof. destruct r; eexists; vm_compute; reflexivity. Qed.

(** C4: the metric projector is total. For every integer year, inside or
    outside 2023..2050, and every Region it returns a record of metrics and
    does not throw. *)
Theorem C4_calculateMetrics_total (year : Z) (r : Region) :
  exists m : Metrics.t, calculateMetrics (of_Z year) r = Normal m.
Proof. apply calculateMetrics_normal. Qed.

Lemma calculateMetrics_fields (year : number) (r : Region) :
  exists f m,
    get regionalFactors (region_name r) = Some f /\
    calculateMetrics year r = Normal m /\
    map (toFixed 1) (Spec.scaled year f) = map Normal (Spec.fields m).
Proof.
  destruct (get_regionalFactors r) as [f Hf].
  destruct (calculateMetrics_normal year r) as [m Hm].
  exists f, m. split; [exact Hf | ]. split; [exact Hm | ].
  unfold calculateMetrics in Hm. rewrite Hf in Hm. cbn [defined bind] in Hm.
  unfold Spec.scaled, Spec.baseTemp, Spec.basePrecip, Spec.baseSeaLevel,
    Spec.baseExtreme, Spec.yearDiff.
  cbn [map Spec.fields].
  repeat match type of Hm with
         | context [toFixed 1 ?v] =>
             let s := fresh "s" in
             let Hs := fresh "Hs" in
             destruct (toFixed_normal 1 v ltac:(lia)) as [s Hs];
             rewrite Hs in Hm |- *; cbn [bind] in Hm
         end.
  injection Hm as <-. reflexivity.
Qed.

Lemma supported_years_spec (y : Z) :
  (2023 <= y <= 2050)%Z -> In y supported_years.
Proof.
  intros Hy. unfold supported_years. apply in_map_iff.
  exists (Z.to_nat y). split; [lia | apply in_seq; lia].
Qed.

Lemma regionalFactors_below_2 (r : Region) (f : Factors.t) :
  get regionalFactors (region_name r) = Some f -> factors_below_2 f.
Proof.
  intros Hf. destruct r; injection Hf as <-;
    repeat split; vm_compute; reflexivity.
Qed.

(** For a year of magnitude below 2^60 the four products stay below 2^69,
    under 10^21. *)
Lemma scaled_lt_pow2 (year : Z) (f : Factors.t) :
  (Z.abs year < 2 ^ 60)%Z -> factors_below_2 f ->
  Forall (lt_pow2 69) (Spec.scaled (of_Z year) f).
Proof.
  intros Hy (Ht & Hp & Hs & He).
  pose proof (of_Z_bound year 60 Hy ltac:(lia)) as Hyear.
  assert (H2023 : lt_pow2 (60 + 1) (of_Z 2023)) by (vm_compute; reflexivity).
  pose proof (sub_bound _ _ _ Hyear H2023 ltac:(lia)) as Hdiff.
  unfold Spec.scaled, Spec.baseTemp, Spec.basePrecip, Spec.baseSeaLevel,
    Spec.baseExtreme, Spec.yearDiff.
  change (sub (of_Z 2050) (of_Z 2023)) with (of_Z 27).
  repeat apply Forall_cons; [ | | | | apply Forall_nil].
  - assert (Hc : lt_pow2 0 (sub (lit 16 1) (lit 11 1)))
      by (vm_compute; reflexivity).
    pose proof (mul_bound _ _ _ _ Hdiff Hc ltac:(lia)) as H1.
    pose proof (div_27_bound _ _ H1 ltac:(lia)) as H2.
    assert (H11 : lt_pow2 (60 + 1 + 2 + 0 + 1 - 3) (lit 11 1))
      by (vm_compute; reflexivity).
    pose proof (add_bound _ _ _ H11 H2 ltac:(lia)) as H3.
    pose proof (mul_bound _ _ _ _ H3 Ht ltac:(lia)) as H4.
    apply (lt_pow2_mono _ _ _ H4). lia.
  - assert (Hc : lt_pow2 3 (lit 53 1)) by (vm_compute; reflexivity).
    pose proof (mul_bound _ _ _ _ Hdiff Hc ltac:(lia)) as H1.
    pose proof (div_27_bound _ _ H1 ltac:(lia)) as H2.
    pose proof (mul_bound _ _ _ _ H2 Hp ltac:(lia)) as H3.
    apply (lt_pow2_mono _ _ _ H3). lia.
  - assert (Hc : lt_pow2 5 (lit 263 1)) by (vm_compute; reflexivity).
    pose proof (mul_bound _ _ _ _ Hdiff Hc ltac:(lia)) as H1.
    pose proof (div_27_bound _ _ H1 ltac:(lia)) as H2.
    pose proof (mul_bound _ _ _ _ H2 Hs ltac:(lia)) as H3.
    apply (lt_pow2_mono _ _ _ H3). lia.
  - assert (Hc : lt_pow2 6 (of_Z 32)) by (vm_compute; reflexivity).
    pose proof (mul_bound _ _ _ _ Hdiff Hc ltac:(lia)) as H1.
    pose proof (div_27_bound _ _ H1 ltac:(lia)) as H2.
    pose proof (mul_bound _ _ _ _ H2 He ltac:(lia)) as H3.
    apply (lt_pow2_mono _ _ _ H3). lia.
Qed.

Lemma scaled_fixed_range (year : Z) (r : Region) (f : Factors.t) :
  (Z.abs year <= 10 ^ 18)%Z ->
  get regionalFactors (region_name r) = Some f ->
  Forall Spec.fixed_range (Spec.scaled (of_Z year) f).
Proof.
  intros Hy Hf.
  assert (Hy' : (Z.abs year < 2 ^ 60)%Z).
  { apply Z.le_lt_trans with (10 ^ 18)%Z; [exact Hy | reflexivity]. }
  pose proof (scaled_lt_pow2 year f Hy' (regionalFactors_below_2 r f Hf))
    as Hall.
  apply Forall_forall. intros v Hv. rewrite Forall_forall in Hall.
  apply in_fixed_range_spec, lt_pow2_in_fixed_range, Hall, Hv.
Qed.

(** C1, with the range of fixed notation made explicit: for every integer
    year and every Region the projector computes [yearDiff = year - 2023],
    the four base values of the specification's formulas, multiplies each
    by the matching regional factor and returns each product through
    [toFixed(1)]. The result has exactly one digit after the decimal point,
    and is within 0.05 of the product, when the product is finite and below
    10^21 in magnitude, and only then; this is the case for every year of
    magnitude up to 10^18. *)
Theorem C1_projector_formula (year : Z) (r : Region) :
  exists f m,
    get regionalFactors (region_name r) = Some f /\
    calculateMetrics (of_Z year) r = Normal m /\
    Forall2 Spec.formatted (Spec.scaled (of_Z year) f) (Spec.fields m) /\
    ((Z.abs year <= 10 ^ 18)%Z ->
     Forall2 Spec.one_decimal (Spec.scaled (of_Z year) f) (Spec.fields m)).
Proof.
  destruct (calculateMetrics_fields (of_Z year) r) as (f & m & Hf & Hm & Heq).
  exists f, m. split; [exact Hf | ]. split; [exact Hm | ].
  assert (Hfmt : Forall2 Spec.formatted (Spec.scaled (of_Z year) f)
                         (Spec.fields m)).
  { unfold Spec.scaled, Spec.fields in *. cbn [map] in Heq.
    injection Heq as H1 H2 H3 H4.
    repeat (apply Forall2_cons; [apply formatted_toFixed; assumption | ]).
    apply Forall2_nil. }
  split; [exact Hfmt | ].
  intros Hy. pose proof (scaled_fixed_range year r f Hy Hf) as Hrange.
  unfold Spec.scaled, Spec.fields in *.
  repeat match goal with
         | H : Forall2 _ (_ :: _) (_ :: _) |- _ =>
             apply Forall2_cons_iff in H; destruct H as [[_ [? _]] H]
         | H : Forall _ (_ :: _) |- _ =>
             apply Forall_cons_iff in H; destruct H as [? H]
         end.
  repeat (apply Forall2_cons; [auto | ]).
  apply Forall2_nil.
Qed.

Lemma C1_witness :
  exists f m,
    get regionalFactors "Global" = Some f /\
    calculateMetrics (of_Z 2050) Global = Normal m /\
    Forall2 Spec.one_decimal (Spec.scaled (of_Z 2050) f) (Spec.fields m).
Proof.
  destruct (C1_projector_formula 2050 Global) as (f & m & Hf & Hm & _ & Hd).
  exists f, m. split; [exact Hf | ]. split; [exact Hm | ].
  apply Hd. vm_compute. discriminate.
Defined.

(** C1 as stated fails: for the integer year 10^22 and 'Global' the
    precipitation, seaLevel and extremeEvents products are at or above
    10^21, and [toFixed(1)] returns them in exponent notation, without
    exactly one digit after the decimal point. *)
Lemma C1_counterexample :
  calculateMetrics (of_Z (10 ^ 22)) Global =
    Normal (Metrics.Build "185185185185185169408.0" "1.962962962962963e+21"
                          "9.74074074074074e+21" "1.185185185185185e+22") /\
  Spec.fraction_digits 1 "1.962962962962963e+21" = false /\
  Spec.fraction_digits 1 "9.74074074074074e+21" = false /\
  Spec.fraction_digits 1 "1.185185185185185e+22" = false.
Proof. repeat split; vm_compute; reflexivity. Qed.

(** C3: [calculateMetrics(2050, 'Global')] is temperature "1.6",
    precipitation "5.3", seaLevel "26.3", extremeEvents "32.0". *)
Theorem C3_projection_2050_Global :
  calculateMetrics (of_Z 2050) Global =
  Normal (Metrics.Build "1.6" "5.3" "26.3" "32.0").
Proof. vm_compute. reflexivity. Qed.

(** C6: at the base year 2023 the interpolation term vanishes. For every
    Region the temperature is [1.1] times the Region's temperature factor,
    formatted to one decimal digit (and that string is a decimal within
    0.05 of the product), and precipitation, seaLevel and extremeEvents are
    all "0.0". *)
Theorem C6_projection_2023 (r : Region) :
  exists f m,
    get regionalFactors (region_name r) = Some f /\
    calculateMetrics (of_Z 2023) r = Normal m /\
    Spec.baseTemp (of_Z 2023) = lit 11 1 /\
    toFixed 1 (mul (lit 11 1) (Factors.temperature f)) =
      Normal (Metrics.temperature m) /\
    Spec.fraction_digits 1 (Metrics.temperature m) = true /\
    Spec.rounds_to 1 (mul (lit 11 1) (Factors.temperature f))
                   (Metrics.temperature m) /\
    Metrics.precipitation m = "0.0" /\
    Metrics.seaLevel m = "0.0" /\
    Metrics.extremeEvents m = "0.0".
Proof.
  destruct r; do 2 eexists;
    (split; [reflexivity | ]);
    (split; [vm_compute; reflexivity | ]);
    (split; [vm_compute; reflexivity | ]);
    (split; [vm_compute; reflexivity | ]);
    (split; [vm_compute; reflexivity | ]);
    (split; [ | repeat split]);
    (eexists; split; [vm_compute; reflexivity | ]);
    vm_compute; discriminate.
Qed.

Lemma temperature_series_monotone (r : Region) :
  series_monotone (temperature_series r) = true.
Proof. destruct r; vm_compute; reflexivity. Qed.

Lemma temperature_series_In (r : Region) (y : Z) :
  (2023 <= y <= 2050)%Z ->
  In (y, temperature_value y r) (temperature_series r).
Proof.
  intros Hy. unfold temperature_series.
  apply (in_map (fun y => (y, temperature_value y r))).
  apply supported_years_spec. exact Hy.
Qed.

Lemma temperature_factor_positive (r : Region) (f : Factors.t) :
  get regionalFactors (region_name r) = Some f ->
  Spec.positive_real (Factors.temperature f).
Proof.
  intros Hf. destruct r; injection Hf as <-; split; reflexivity.
Qed.

(** C5: for every Region and all years [y1 <= y2] within 2023..2050, the
    numeric value of the projected temperature at [y1] is at most that at
    [y2]. The Region's temperature factor is positive, as every defined
    Region's is, so the statement carries no side condition on the
    factor. *)
Theorem C5_temperature_monotone (r : Region) (y1 y2 : Z) :
  (2023 <= y1)%Z -> (y1 <= y2)%Z -> (y2 <= 2050)%Z ->
  exists f m1 m2 q1 q2,
    get regionalFactors (region_name r) = Some f /\
    Spec.positive_real (Factors.temperature f) /\
    calculateMetrics (of_Z y1) r = Normal m1 /\
    calculateMetrics (of_Z y2) r = Normal m2 /\
    decimal_value (Metrics.temperature m1) = Some q1 /\
    decimal_value (Metrics.temperature m2) = Some q2 /\
    (q1 <= q2)%Q.
Proof.
  intros H1 H12 H2.
  destruct (get_regionalFactors r) as [f Hf].
  pose proof (temperature_series_monotone r) as Hall.
  unfold series_monotone in Hall.
  rewrite forallb_forall in Hall.
  specialize (Hall _ (temperature_series_In r y1 ltac:(lia))).
  rewrite forallb_forall in Hall.
  specialize (Hall _ (temperature_series_In r y2 ltac:(lia))).
  cbn [fst snd] in Hall.
  apply orb_true_iff in Hall. destruct Hall as [Hlt | Hle].
  - apply Z.ltb_lt in Hlt. lia.
  - unfold option_Qle, temperature_value in Hle.
    destruct (calculateMetrics (of_Z y1) r) as [m1 | ] eqn:E1;
      [ | discriminate].
    destruct (calculateMetrics (of_Z y2) r) as [m2 | ] eqn:E2;
      [ | destruct (decimal_value _); discriminate].
    destruct (decimal_value (Metrics.temperature m1)) as [q1 | ] eqn:D1;
      [ | discriminate].
    destruct (decimal_value (Metrics.temperature m2)) as [q2 | ] eqn:D2;
      [ | discriminate].
    exists f, m1, m2, q1, q2.
    split; [exact Hf | ].
    split; [exact (temperature_factor_positive r f Hf) | ].
    repeat (split; [reflexivity || assumption | ]).
    apply Qle_bool_iff. exact Hle.
Qed.

Lemma C5_witness :
  exists f m1 m2 q1 q2,
    get regionalFactors "Asia" = Some f /\
    Spec.positive_real (Factors.temperature f) /\
    calculateMetrics (of_Z 2030) Asia = Normal m1 /\
    calculateMetrics (of_Z 2040) Asia = Normal m2 /\
    decimal_value (Metrics.temperature m1) = Some q1 /\
    decimal_value (Metrics.temperature m2) = Some q2 /\
    (q1 <= q2)%Q.
Proof.
  apply (C5_temperature_monotone Asia 2030 2040); lia.
Defined.

(** *** The historical-data transformer *)

Lemma array_map_round (factor : number) (l : list Point.t) :
  Forall (fun p => Spec.fixed_range (mul (Point.temperature p) factor)) l ->
  array_map
    (fun data =>
       let* fixed := toFixed 2 (mul (Point.temperature data) factor) in
       Normal (Point.Build (Point.year data) (Number_of_string fixed)))
    l =
  Normal (map (fun p =>
                 Point.Build
                   (Point.year p)
                   (Spec.round_to_decimals
                      2 (mul (Point.temperature p) factor)))
              l).
Proof.
  induction 1 as [ | p l Hp Hl IH]; [reflexivity | ].
  cbn [array_map map].
  destruct (Number_toFixed_round 2 _ ltac:(lia) Hp) as (s & Hs & Hround).
  rewrite Hs. cbn [bind]. rewrite IH. cbn [bind]. rewrite Hround.
  reflexivity.
Qed.

Lemma historical_products_in_range (r : Region) (f : Factors.t) :
  get regionalFactors (region_name r) = Some f ->
  Forall (fun p =>
            Spec.fixed_range
              (mul (Point.temperature p) (Factors.temperature f)))
         baseHistoricalData.
Proof.
  intros Hf. unfold baseHistoricalData.
  destruct r; injection Hf as <-;
    repeat (apply Forall_cons;
            [apply in_fixed_range_spec; vm_compute; reflexivity | ]);
    apply Forall_nil.
Qed.

(** C2: for every Region the transformer returns the 7-point base sequence
    with each temperature multiplied by the Region's temperature factor and
    rounded to 2 decimal digits; years, order and length are those of the
    base sequence. For 'Asia' the factor is 1.3 and the point of year 2023
    goes from 1.1 to 1.43. *)
Theorem C2_historical_transform (r : Region) :
  (exists f h,
      get regionalFactors (region_name r) = Some f /\
      getRegionalHistoricalData r = Normal h /\
      h = Spec.historicalTransform (Factors.temperature f) /\
      map Point.year h = map Point.year baseHistoricalData /\
      List.length h = 7%nat) /\
  (exists f h,
      get regionalFactors "Asia" = Some f /\
      Factors.temperature f = lit 13 1 /\
      getRegionalHistoricalData Asia = Normal h /\
      nth_error baseHistoricalData 3 =
        Some (Point.Build (of_Z 2023) (lit 11 1)) /\
      nth_error h 3 = Some (Point.Build (of_Z 2023) (lit 143 2))).
Proof.
  split.
  - destruct (get_regionalFactors r) as [f Hf].
    exists f, (Spec.historicalTransform (Factors.temperature f)).
    split; [exact Hf | ].
    split.
    + unfold getRegionalHistoricalData. rewrite Hf. cbn [defined bind].
      apply array_map_round, (historical_products_in_range r), Hf.
    + split; [reflexivity | ].
      unfold Spec.historicalTransform.
      rewrite map_map, length_map. split; reflexivity.
  - do 2 eexists.
    split; [reflexivity | ].
    split; [reflexivity | ].
    split; [vm_compute; reflexivity | ].
    split; vm_compute; reflexivity.
Qed.

(** C7: for 'Global' the transformer returns the base historical sequence,
    point for point. *)
Theorem C7_historical_Global :
  getRegionalHistoricalData Global = Normal baseHistoricalData.
Proof. vm_compute. reflexivity. Qed.

(** C10: for every Region the temperatures of the transformed sequence are
    non-decreasing in sequence order; so are those of the base sequence. *)
Theorem C10_historical_non_decreasing (r : Region) :
  Spec.non_decreasing (map Point.temperature baseHistoricalData) /\
  exists h,
    getRegionalHistoricalData r = Normal h /\
    Spec.non_decreasing (map Point.temperature h).
Proof.
  split.
  - unfold Spec.non_decreasing.
    repeat (apply SSorted_cons;
            [ | repeat (apply Forall_cons; [vm_compute; reflexivity | ]);
                apply Forall_nil]).
    apply SSorted_nil.
  - destruct r; eexists; (split; [vm_compute; reflexivity | ]);
      unfold Spec.non_decreasing; cbn [map Point.temperature];
      repeat (apply SSorted_cons;
              [ | repeat (apply Forall_cons; [vm_compute; reflexivity | ]);
                  apply Forall_nil]);
      apply SSorted_nil.
Qed.

(** *** The CO2 series *)

(** C9: the CO2 series handed to the chart is the same for any two
    selections of Region (and of year): it is the constant 7-point
    [co2Data]. *)
Theorem C9_co2_region_independent
  (r1 r2 : Region) (year1 year2 : number) :
  exists v1 v2,
    ClimateAIDashboard r1 year1 = Normal v1 /\
    ClimateAIDashboard r2 year2 = Normal v2 /\
    View.areaChartData v1 = View.areaChartData v2 /\
    View.areaChartData v1 = co2Data /\
    List.length (View.areaChartData v1) = 7%nat.
Proof.
  unfold ClimateAIDashboard.
  destruct (calculateMetrics_normal year1 r1) as [m1 ->].
  destruct (calculateMetrics_normal year2 r2) as [m2 ->].
  destruct (getRegionalHistoricalData_normal r1) as [h1 ->].
  destruct (getRegionalHistoricalData_normal r2) as [h2 ->].
  cbn [bind]. do 2 eexists. repeat split.
Qed.

(** ** Further properties of the projector *)

Lemma metric_value_le (k : metric) (y1 y2 : Z) (r1 r2 : Region) :
  option_Qle (metric_value k y1 r1) (metric_value k y2 r2) = true ->
  exists m1 m2,
    calculateMetrics (of_Z y1) r1 = Normal m1 /\
    calculateMetrics (of_Z y2) r2 = Normal m2 /\
    field_le (field_of k m1) (field_of k m2).
Proof.
  unfold option_Qle, metric_value, field_le. intros Hle.
  destruct (calculateMetrics (of_Z y1) r1) as [m1 | ]; [ | discriminate].
  destruct (calculateMetrics (of_Z y2) r2) as [m2 | ];
    [ | destruct (decimal_value _); discriminate].
  destruct (decimal_value (field_of k m1)) as [q1 | ] eqn:D1;
    [ | discriminate].
  destruct (decimal_value (field_of k m2)) as [q2 | ] eqn:D2;
    [ | discriminate].
  exists m1, m2. split; [reflexivity | ]. split; [reflexivity | ].
  exists q1, q2. split; [exact D1 | ]. split; [exact D2 | ].
  apply Qle_bool_iff. exact Hle.
Qed.

Lemma metric_series_In (k : metric) (r : Region) (y : Z) :
  (2023 <= y <= 2050)%Z -> In (y, metric_value k y r) (metric_series k r).
Proof.
  intros Hy. unfold metric_series.
  apply (in_map (fun y => (y, metric_value k y r))).
  apply supported_years_spec. exact Hy.
Qed.

Lemma metric_series_monotone (k : metric) (r : Region) :
  series_monotone (metric_series k r) = true.
Proof. destruct k, r; vm_compute; reflexivity. Qed.

(** X1: over the years of the range control each of the four projected
    values, not only the temperature, is non-decreasing in the year, for
    every Region. *)
Theorem X1_metrics_monotone_in_year
  (k : metric) (r : Region) (y1 y2 : Z) :
  (2023 <= y1)%Z -> (y1 <= y2)%Z -> (y2 <= 2050)%Z ->
  exists m1 m2,
    calculateMetrics (of_Z y1) r = Normal m1 /\
    calculateMetrics (of_Z y2) r = Normal m2 /\
    field_le (field_of k m1) (field_of k m2).
Proof.
  intros H1 H12 H2.
  pose proof (metric_series_monotone k r) as Hall.
  unfold series_monotone in Hall.
  rewrite forallb_forall in Hall.
  specialize (Hall _ (metric_series_In k r y1 ltac:(lia))).
  rewrite forallb_forall in Hall.
  specialize (Hall _ (metric_series_In k r y2 ltac:(lia))).
  cbn [fst snd] in Hall.
  apply orb_true_iff in Hall. destruct Hall as [Hlt | Hle].
  - apply Z.ltb_lt in Hlt. lia.
  - apply metric_value_le. exact Hle.
Qed.

Lemma X1_witness :
  exists m1 m2,
    calculateMetrics (of_Z 2024) Africa = Normal m1 /\
    calculateMetrics (of_Z 2049) Africa = Normal m2 /\
    field_le (Metrics.seaLevel m1) (Metrics.seaLevel m2).
Proof.
  apply (X1_metrics_monotone_in_year SeaLevel Africa 2024 2049); lia.
Defined.

Lemma factor_order_kept_all (k : metric) : factor_order_kept k = true.
Proof. destruct k; vm_compute; reflexivity. Qed.

(** X2: applying the regional factors keeps their order. For every metric
    and every year of the range control, a Region whose factor for that
    metric is at most another Region's gets a projected value at most the
    other's. *)
Theorem X2_factor_order_kept
  (k : metric) (r1 r2 : Region) (f1 f2 : Factors.t) (y : Z) :
  get regionalFactors (region_name r1) = Some f1 ->
  get regionalFactors (region_name r2) = Some f2 ->
  leb (factor_of k f1) (factor_of k f2) = true ->
  (2023 <= y <= 2050)%Z ->
  exists m1 m2,
    calculateMetrics (of_Z y) r1 = Normal m1 /\
    calculateMetrics (of_Z y) r2 = Normal m2 /\
    field_le (field_of k m1) (field_of k m2).
Proof.
  intros Hf1 Hf2 Hleb Hy.
  pose proof (factor_order_kept_all k) as Hall.
  unfold factor_order_kept in Hall.
  set (entry := fun r => (get regionalFactors (region_name r),
                          metric_series k r)) in Hall.
  rewrite forallb_forall in Hall.
  specialize (Hall (entry r1) (in_map entry _ _ (all_regions_complete r1))).
  rewrite forallb_forall in Hall.
  specialize (Hall (entry r2) (in_map entry _ _ (all_regions_complete r2))).
  unfold entry in Hall. cbn [fst snd] in Hall.
  rewrite Hf1, Hf2, Hleb in Hall. cbn [implb] in Hall.
  unfold series_le in Hall.
  rewrite forallb_forall in Hall.
  specialize (Hall _ (metric_series_In k r1 y Hy)).
  rewrite forallb_forall in Hall.
  specialize (Hall _ (metric_series_In k r2 y Hy)).
  cbn [fst snd] in Hall. rewrite Z.eqb_refl in Hall. cbn [negb orb] in Hall.
  apply metric_value_le. exact Hall.
Qed.

Lemma X2_witness :
  exists m1 m2,
    calculateMetrics (of_Z 2037) Africa = Normal m1 /\
    calculateMetrics (of_Z 2037) Oceania = Normal m2 /\
    field_le (Metrics.precipitation m1) (Metrics.precipitation m2).
Proof.
  apply (X2_factor_order_kept
           Precipitation Africa Oceania
           (Factors.Build (lit 14 1) (lit 7 1) (lit 11 1) (lit 14 1))
           (Factors.Build (lit 12 1) (lit 9 1) (lit 13 1) (lit 11 1))
           2037);
    [reflexivity | reflexivity | reflexivity | lia].
Defined.

(** X3: at the end year 2050 the interpolation returns the end values
    exactly, 1.6, 5.3, 26.3 and 32, so for every Region each field is the
    end value times the Region's factor, formatted by [toFixed(1)]. *)
Theorem X3_projection_2050 (r : Region) :
  Spec.baseTemp (of_Z 2050) = lit 16 1 /\
  Spec.basePrecip (of_Z 2050) = lit 53 1 /\
  Spec.baseSeaLevel (of_Z 2050) = lit 263 1 /\
  Spec.baseExtreme (of_Z 2050) = of_Z 32 /\
  exists f m,
    get regionalFactors (region_name r) = Some f /\
    calculateMetrics (of_Z 2050) r = Normal m /\
    toFixed 1 (mul (lit 16 1) (Factors.temperature f)) =
      Normal (Metrics.temperature m) /\
    toFixed 1 (mul (lit 53 1) (Factors.precipitation f)) =
      Normal (Metrics.precipitation m) /\
    toFixed 1 (mul (lit 263 1) (Factors.seaLevel f)) =
      Normal (Metrics.seaLevel m) /\
    toFixed 1 (mul (of_Z 32) (Factors.extremeEvents f)) =
      Normal (Metrics.extremeEvents m).
Proof.
  repeat (split; [vm_compute; reflexivity | ]).
  destruct r; do 2 eexists;
    (split; [reflexivity | ]);
    (split; [vm_compute; reflexivity | ]);
    repeat split; vm_compute; reflexivity.
Qed.

(** X4: a year that is not a finite Number does not make the projector
    throw. For every Region, NaN gives "NaN" in all four fields, and the
    two infinities give "Infinity" and "-Infinity". *)
Theorem X4_non_finite_year (r : Region) :
  calculateMetrics NaN r = Normal (Metrics.Build "NaN" "NaN" "NaN" "NaN") /\
  calculateMetrics Infinity r =
    Normal (Metrics.Build "Infinity" "Infinity" "Infinity" "Infinity") /\
  calculateMetrics (S754_infinity true) r =
    Normal (Metrics.Build "-Infinity" "-Infinity" "-Infinity" "-Infinity").
Proof. destruct r; repeat split; vm_compute; reflexivity. Qed.

(** X5: the card and the chart agree at both ends of the interpolation.
    For every Region the projected temperature for 2023 and for 2050 is the
    historical series' point of that year, to one decimal. In between they
    can differ: for 'Global' the series has 1.3 at 2030 and the projector
    gives "1.2". *)
Theorem X5_projector_meets_history (r : Region) :
  (exists h p2023 p2050 m2023 m2050,
      getRegionalHistoricalData r = Normal h /\
      nth_error h 3 = Some p2023 /\ Point.year p2023 = of_Z 2023 /\
      nth_error h 6 = Some p2050 /\ Point.year p2050 = of_Z 2050 /\
      calculateMetrics (of_Z 2023) r = Normal m2023 /\
      calculateMetrics (of_Z 2050) r = Normal m2050 /\
      toFixed 1 (Point.temperature p2023) =
        Normal (Metrics.temperature m2023) /\
      toFixed 1 (Point.temperature p2050) =
        Normal (Metrics.temperature m2050)) /\
  (exists h p2030 m2030,
      getRegionalHistoricalData Global = Normal h /\
      nth_error h 4 = Some p2030 /\ Point.year p2030 = of_Z 2030 /\
      calculateMetrics (of_Z 2030) Global = Normal m2030 /\
      toFixed 1 (Point.temperature p2030) = Normal "1.3" /\
      Metrics.temperature m2030 = "1.2").
Proof.
  split.
  - destruct r; do 5 eexists;
      (split; [vm_compute; reflexivity | ]);
      (split; [reflexivity | ]); (split; [reflexivity | ]);
      (split; [reflexivity | ]); (split; [reflexivity | ]);
      (split; [vm_compute; reflexivity | ]);
      (split; [vm_compute; reflexivity | ]);
      split; vm_compute; reflexivity.
  - do 3 eexists.
    split; [vm_compute; reflexivity | ].
    split; [reflexivity | ]. split; [reflexivity | ].
    split; [vm_compute; reflexivity | ].
    split; vm_compute; reflexivity.
Qed.

(** ** Properties of the component *)

(** *** Region strings *)


Lemma region_of_name (region : string) :
  In region regions -> exists r : Region, region = region_name r.
Proof.
  unfold regions. cbn [In].
  intros [<- | [<- | [<- | [<- | [<- | [<- | [<- | []]]]]]]].
  - exists Global. reflexivity.
  - exists NorthAmerica. reflexivity.
  - exists Europe. reflexivity.
  - exists Asia. reflexivity.
  - exists Africa. reflexivity.
  - exists SouthAmerica. reflexivity.
  - exists Oceania. reflexivity.
Qed.

Lemma region_name_In (r : Region) : In (region_name r) regions.
Proof. destruct r; simpl; tauto. Qed.



(** *** The year handler *)

Lemma digit_not_space (c : ascii) : is_digit c = true -> is_space c = false.
Proof.
  unfold is_digit, is_space. intros Hc.
  apply andb_true_iff in Hc. destruct Hc as [Hlo Hhi].
  apply Nat.leb_le in Hlo. apply Nat.leb_le in Hhi.
  apply orb_false_iff. split.
  - apply andb_false_iff. right. apply Nat.leb_gt. lia.
  - apply Nat.eqb_neq. lia.
Qed.

Lemma digit_not_x (c : ascii) :
  is_digit c = true -> (c =? "x")%char || (c =? "X")%char = false.
Proof.
  intros Hc. apply orb_false_iff. split;
    match goal with
    | |- (c =? ?d)%char = false =>
        destruct (Ascii.eqb_spec c d) as [-> | _];
        [vm_compute in Hc; discriminate | reflexivity]
    end.
Qed.

Lemma parseInt_decimal_digits (n : Z) :
  (0 <= n)%Z -> parseInt (string_of_list_ascii (decimal_digits n)) = of_Z n.
Proof.
  intros Hn. unfold parseInt. rewrite list_ascii_of_string_of_list_ascii.
  pose proof (decimal_digits_digits n) as Hd.
  pose proof (decimal_digits_nonempty n) as Hl.
  pose proof (decimal_digits_value n Hn) as Hv.
  destruct (decimal_digits n) as [ | c rest]; [simpl in Hl; lia | ].
  unfold all_digits in Hd.
  pose proof (Forall_inv Hd) as Hc. pose proof (Forall_inv_tail Hd) as Hrest.
  cbn beta in Hc.
  cbn [trim_start]. rewrite (digit_not_space c Hc).
  cbn [take_sign]. destruct (digit_not_symbol c Hc) as (-> & -> & _).
  assert (Hhex :
            match c :: rest with
            | c0 :: x :: rest0 =>
                if (c0 =? "0")%char && ((x =? "x")%char || (x =? "X")%char)
                then Some rest0 else None
            | _ => None
            end = None).
  { destruct rest as [ | x rest0]; [reflexivity | ].
    pose proof (Forall_inv Hrest) as Hx. cbn beta in Hx.
    rewrite (digit_not_x x Hx), andb_false_r. reflexivity. }
  rewrite Hhex. rewrite span_digits_end by exact Hd. cbn [fst].
  rewrite Hv. destruct n as [ | p | p]; [reflexivity | reflexivity | lia].
Qed.

(** X7: the year handler reads back what the range input writes. For every
    integer [n >= 0], a change event whose value is the decimal digits of
    [n] sets the year to the Number [n] and keeps the region. *)
Theorem X7_year_change_round_trip (n : Z) (st : Component.State) :
  (0 <= n)%Z ->
  Component.onYearChange (string_of_list_ascii (decimal_digits n)) st =
  Component.Build (Component.selectedRegion st) (of_Z n).
Proof.
  intros Hn. unfold Component.onYearChange.
  rewrite parseInt_decimal_digits by exact Hn. reflexivity.
Qed.

Lemma X7_witness :
  Component.onYearChange "2037" Component.initialState =
  Component.Build "Global" (of_Z 2037).
Proof.
  apply (X7_year_change_round_trip 2037 Component.initialState). lia.
Defined.

(** *** Reachable states *)

Lemma handle_reachable (st : Component.State) (ev : Component.event) :
  Component.reachable st -> Component.offered ev ->
  Component.reachable (Component.handle st ev).
Proof.
  intros [Hregion Hyear] Hev. destruct ev as [value | value]; simpl in Hev.
  - split; [ | exact Hyear]. cbn. apply region_of_name. exact Hev.
  - split; [exact Hregion | ]. destruct Hev as (y & Hy & ->).
    exists y. split; [exact Hy | ]. cbn.
    apply parseInt_decimal_digits. lia.
Qed.

Lemma run_reachable (evs : list Component.event) :
  forall st,
    Component.reachable st -> Forall Component.offered evs ->
    Component.reachable (fold_left Component.handle evs st).
Proof.
  induction evs as [ | ev evs IH]; intros st Hst Hevs; [exact Hst | ].
  inversion Hevs as [ | ? ? Hev Hrest]; subst.
  cbn [fold_left]. apply IH; [ | exact Hrest].
  apply handle_reachable; assumption.
Qed.

(** X8: the two controls keep the state valid. After any sequence of
    events the select and the range input can send, the selected region is
    one of the seven names and the selected year is an integer from 2023 to
    2050. *)
Theorem X8_controls_keep_state_valid (evs : list Component.event) :
  Forall Component.offered evs -> Component.reachable (Component.run evs).
Proof.
  intros Hevs. unfold Component.run. apply run_reachable; [ | exact Hevs].
  split.
  - exists Global. reflexivity.
  - exists 2050%Z. split; [lia | reflexivity].
Qed.

Lemma X8_witness :
  Component.reachable
    (Component.run [Component.YearChange "2030";
                    Component.RegionChange "Asia";
                    Component.YearChange "2023"]).
Proof.
  apply X8_controls_keep_state_valid.
  repeat apply Forall_cons; [ | | | apply Forall_nil].
  - exists 2030%Z. split; [lia | reflexivity].
  - simpl. tauto.
  - exists 2023%Z. split; [lia | reflexivity].
Defined.

(** *** What a render shows *)

Lemma metrics_unsigned_supported (r : Region) :
  forallb (fun y => metrics_unsigned y r) supported_years = true.
Proof. destruct r; vm_compute; reflexivity. Qed.

Lemma getRegionalHistoricalData_transform (r : Region) (f : Factors.t) :
  get regionalFactors (region_name r) = Some f ->
  getRegionalHistoricalData r =
  Normal (Spec.historicalTransform (Factors.temperature f)).
Proof.
  intros Hf. unfold getRegionalHistoricalData. rewrite Hf.
  cbn [defined bind].
  apply array_map_round, (historical_products_in_range r), Hf.
Qed.

(** X9: in every state the controls can reach the render does not throw,
    and each metric card shows an unsigned number with one decimal between
    its fixed prefix and unit: the "+" written before three of the values
    never meets a minus sign. The line chart gets the Region's transformed
    series and the area chart the CO2 series. *)
Theorem X9_render_in_reachable_state (st : Component.State) :
  Component.reachable st ->
  exists v f t p s e,
    Component.render st = Normal v /\
    get regionalFactors (Component.selectedRegion st) = Some f /\
    Component.options v = regions /\
    Component.temperatureCard v = ("+" ++ t ++ "°C")%string /\
    Component.precipitationCard v = (p ++ "%")%string /\
    Component.seaLevelCard v = ("+" ++ s ++ "cm")%string /\
    Component.extremeEventsCard v = ("+" ++ e ++ "%")%string /\
    unsigned_one_decimal t = true /\
    unsigned_one_decimal p = true /\
    unsigned_one_decimal s = true /\
    unsigned_one_decimal e = true /\
    Component.lineName v =
      (Component.selectedRegion st ++ " Temperature")%string /\
    Component.lineChartData v =
      Spec.historicalTransform (Factors.temperature f) /\
    Component.areaChartData v = co2Data.
Proof.
  intros [[r Hr] (y & Hy & Hyear)].
  destruct st as [region year]. cbn in Hr, Hyear. subst region year.
  destruct (get_regionalFactors r) as [f Hf].
  pose proof (metrics_unsigned_supported r) as Hall.
  rewrite forallb_forall in Hall.
  specialize (Hall y (supported_years_spec y Hy)).
  unfold metrics_unsigned in Hall.
  unfold Component.render. cbn [Component.selectedRegion Component.selectedYear].
  change (Untyped.calculateMetrics (of_Z y) (region_name r))
    with (calculateMetrics (of_Z y) r).
  change (Untyped.getRegionalHistoricalData (region_name r))
    with (getRegionalHistoricalData r).
  rewrite (getRegionalHistoricalData_transform r f Hf).
  destruct (calculateMetrics (of_Z y) r) as [m | ]; [ | discriminate].
  cbn [forallb Spec.fields] in Hall.
  repeat (apply andb_true_iff in Hall; destruct Hall as [? Hall]).
  cbn [bind]. eexists. exists f.
  exists (Metrics.temperature m), (Metrics.precipitation m),
    (Metrics.seaLevel m), (Metrics.extremeEvents m).
  split; [reflexivity | ]. split; [exact Hf | ].
  repeat (split; [reflexivity || assumption | ]). reflexivity.
Qed.

Lemma X9_witness :
  exists v f t p s e,
    Component.render (Component.Build "Asia" (of_Z 2030)) = Normal v /\
    get regionalFactors "Asia" = Some f /\
    Component.options v = regions /\
    Component.temperatureCard v = ("+" ++ t ++ "°C")%string /\
    Component.precipitationCard v = (p ++ "%")%string /\
    Component.seaLevelCard v = ("+" ++ s ++ "cm")%string /\
    Component.extremeEventsCard v = ("+" ++ e ++ "%")%string /\
    unsigned_one_decimal t = true /\
    unsigned_one_decimal p = true /\
    unsigned_one_decimal s = true /\
    unsigned_one_decimal e = true /\
    Component.lineName v = ("Asia" ++ " Temperature")%string /\
    Component.lineChartData v =
      Spec.historicalTransform (Factors.temperature f) /\
    Component.areaChartData v = co2Data.
Proof.
  apply (X9_render_in_reachable_state (Component.Build "Asia" (of_Z 2030))).
  split.
  - exists Asia. reflexivity.
  - exists 2030%Z. split; [lia | reflexivity].
Defined.




(** ** Lower bounds on magnitudes, and the sign of the projections *)


(** ** The sign of the projections *)

(** *** Lower bounds through rounding *)

Lemma Zdigits2_lower (m : Z) :
  (1 <= m)%Z -> (1 <= Zdigits2 m /\ 2 ^ (Zdigits2 m - 1) <= m)%Z.
Proof.
  intros Hm. destruct m as [ | p | p]; try lia.
  cbn [Zdigits2]. rewrite digits2_pos_size.
  pose proof (Z.log2_spec (Zpos p) ltac:(lia)) as [Hlo _].
  assert (Hlog : Z.log2 (Zpos p) = (Zpos (Pos.size p) - 1)%Z)
    by (destruct p; cbn [Z.log2 Pos.size]; rewrite ?Pos2Z.inj_succ; lia).
  rewrite Hlog in Hlo. split; [lia | exact Hlo].
Qed.

Lemma div_pow2_ge (m a k : Z) :
  (0 <= k)%Z -> (0 <= a)%Z -> (2 ^ (a + k) <= m)%Z -> (2 ^ a <= m / 2 ^ k)%Z.
Proof.
  intros Hk Ha Hm.
  apply Z.div_le_lower_bound; [apply pow2_positive; exact Hk | ].
  rewrite <- Z.pow_add_r by lia. replace (k + a)%Z with (a + k)%Z by lia.
  exact Hm.
Qed.

Lemma shr_fexp_lower (m e : Z) (l : location) (L : Z) :
  (1 <= m)%Z -> (2 ^ (L - e) <= m)%Z -> (-1074 <= L)%Z ->
  let mrs_e := shr_fexp prec emax m e l in
  (1 <= shr_m (fst mrs_e))%Z /\
  (2 ^ (L - snd mrs_e) <= shr_m (fst mrs_e))%Z.
Proof.
  intros Hm HL Hmin mrs_e. unfold mrs_e, shr_fexp.
  set (n := (fexp prec emax (Zdigits2 m + e) - e)%Z).
  destruct (shr_spec (shr_record_of_loc m l) e n) as [Hsm He];
    [rewrite shr_record_of_loc_m; lia | ].
  rewrite Hsm, He, shr_record_of_loc_m.
  destruct (Zdigits2_lower m Hm) as [Hd1 Hdig].
  set (d := Zdigits2 m) in *.
  assert (Hmd : (m < 2 ^ d)%Z).
  { destruct (Z.lt_ge_cases m (2 ^ d)) as [H | H]; [exact H | ].
    exfalso. destruct m as [ | p | p]; try lia.
    unfold d in H. cbn [Zdigits2] in H. rewrite digits2_pos_size in H.
    pose proof (Pos.size_gt p) as Hgt.
    apply Pos2Z.pos_lt_pos in Hgt. rewrite Pos2Z.inj_pow in Hgt. lia. }
  assert (Hde : (-1073 <= d + e)%Z).
  { destruct (Z.lt_ge_cases (L - e) 0) as [Hneg | Hpos]; [lia | ].
    assert (L - e < d)%Z; [ | lia].
    apply (Z.pow_lt_mono_r_iff 2); lia. }
  assert (Hk : (0 <= Z.max 0 n <= d - 1)%Z).
  { unfold n, fexp, emin, prec, emax.
    change IntDef.Z.max with Z.max. lia. }
  set (k := Z.max 0 n) in *.
  split.
  - change 1%Z with (2 ^ 0)%Z. apply div_pow2_ge; [lia | lia | ].
    apply Z.le_trans with (2 ^ (d - 1))%Z; [ | exact Hdig].
    apply pow2_le. lia.
  - destruct (Z.lt_ge_cases (L - (e + k)) 0) as [Hneg | Hpos].
    + rewrite Z.pow_neg_r by exact Hneg.
      apply Z.div_pos; [lia | apply pow2_positive; lia].
    + apply div_pow2_ge; [lia | exact Hpos | ].
      replace (L - (e + k) + k)%Z with (L - e)%Z by lia. exact HL.
Qed.

(** Rounding a value of at least [2^L] keeps the sign and the bound. *)
Lemma binary_round_aux_lower (s : bool) (m e : Z) (l : location) (L : Z) :
  (1 <= m)%Z -> (2 ^ (L - e) <= m)%Z -> (-1074 <= L)%Z ->
  ge_pow2 L s (binary_round_aux prec emax s m e l).
Proof.
  intros Hm HL Hmin. unfold binary_round_aux.
  pose proof (shr_fexp_lower m e l L Hm HL Hmin) as [H1 HL1].
  destruct (shr_fexp prec emax m e l) as [mrs1 e1]. cbn [fst snd] in H1, HL1.
  pose proof (round_nearest_even_bounds (shr_m mrs1) (loc_of_shr_record mrs1))
    as Hr.
  set (m2 := round_nearest_even (shr_m mrs1) (loc_of_shr_record mrs1)) in *.
  pose proof (shr_fexp_lower m2 e1 loc_Exact L ltac:(lia) ltac:(lia) Hmin)
    as [H3 HL3].
  destruct (shr_fexp prec emax m2 e1 loc_Exact) as [mrs2 e2].
  cbn [fst snd] in H3, HL3.
  destruct (shr_m mrs2) as [ | m3 | m3]; [lia | | lia].
  destruct (e2 <=? emax - prec)%Z; cbn [ge_pow2]; [split | ];
    reflexivity || exact HL3.
Qed.

(** *** Lower bounds through the operators *)

Lemma ge_pow2_mono (L L' : Z) (s : bool) (x : number) :
  ge_pow2 L s x -> (L' <= L)%Z -> ge_pow2 L' s x.
Proof.
  destruct x as [sx | sx | | sx m e]; cbn [ge_pow2]; try tauto.
  intros [Hs Hm] HL. split; [exact Hs | ].
  destruct (Z.lt_ge_cases (L' - e) 0) as [Hneg | Hpos].
  - rewrite Z.pow_neg_r by exact Hneg. lia.
  - apply Z.le_trans with (2 ^ (L - e))%Z; [apply pow2_le; lia | exact Hm].
Qed.

Lemma pow2_scale_ge (a i j : Z) :
  (1 <= a)%Z -> (2 ^ i <= a)%Z -> (0 <= j)%Z -> (2 ^ (i + j) <= a * 2 ^ j)%Z.
Proof.
  intros Ha Hi Hj. pose proof (pow2_positive j Hj) as Hpj.
  destruct (Z.lt_ge_cases i 0) as [Hneg | Hpos].
  - destruct (Z.lt_ge_cases (i + j) 0) as [Hneg' | Hpos'].
    + rewrite Z.pow_neg_r by exact Hneg'. nia.
    + apply Z.le_trans with (2 ^ j)%Z; [apply pow2_le; lia | nia].
  - rewrite Z.pow_add_r by lia. nia.
Qed.

Lemma pow2_mul_ge (a b i j : Z) :
  (1 <= a)%Z -> (1 <= b)%Z -> (2 ^ i <= a)%Z -> (2 ^ j <= b)%Z ->
  (2 ^ (i + j) <= a * b)%Z.
Proof.
  intros Ha Hb Hi Hj.
  destruct (Z.lt_ge_cases j 0) as [Hneg | Hpos].
  - destruct (Z.lt_ge_cases (i + j) 0) as [Hneg' | Hpos'].
    + rewrite Z.pow_neg_r by exact Hneg'. nia.
    + apply Z.le_trans with (2 ^ i)%Z; [apply pow2_le; lia | nia].
  - apply Z.le_trans with (a * 2 ^ j)%Z; [apply pow2_scale_ge; lia | nia].
Qed.

Lemma mul_lower (x y : number) (Lx Ly : Z) (sx sy : bool) :
  ge_pow2 Lx sx x -> ge_pow2 Ly sy y -> (-1074 <= Lx + Ly)%Z ->
  ge_pow2 (Lx + Ly) (xorb sx sy) (mul x y).
Proof.
  destruct x as [sx' | sx' | | sx' mx ex];
    destruct y as [sy' | sy' | | sy' my ey];
    cbn [ge_pow2]; try tauto.
  - intros -> -> _. reflexivity.
  - intros -> [-> _] _. reflexivity.
  - intros [-> _] -> _. reflexivity.
  - intros [-> Hx] [-> Hy] HL. unfold mul, SFmul.
    apply binary_round_aux_lower; [lia | | exact HL].
    rewrite Pos2Z.inj_mul.
    replace (Lx + Ly - (ex + ey))%Z with ((Lx - ex) + (Ly - ey))%Z by lia.
    apply pow2_mul_ge; lia.
Qed.

Lemma binary_round_lower (s : bool) (p : positive) (e L : Z) :
  (2 ^ (L - e) <= Zpos p)%Z -> (-1074 <= L)%Z ->
  ge_pow2 L s (binary_round prec emax s p e).
Proof.
  intros Hp HL. unfold binary_round.
  pose proof (shl_align_spec p e (fexp prec emax (Zpos (digits2_pos p) + e)))
    as (Hez & Hmz & _).
  destruct (shl_align p e (fexp prec emax (Zpos (digits2_pos p) + e)))
    as [mz ez]. cbn [fst snd] in Hez, Hmz.
  apply binary_round_aux_lower; [lia | | exact HL].
  rewrite Hmz. replace (L - ez)%Z with ((L - e) + (e - ez))%Z by lia.
  apply pow2_scale_ge; lia.
Qed.

Lemma binary_normalize_lower (m e L : Z) :
  (1 <= Z.abs m)%Z -> (2 ^ (L - e) <= Z.abs m)%Z -> (-1074 <= L)%Z ->
  ge_pow2 L (m <? 0)%Z (binary_normalize prec emax m e false).
Proof.
  intros Hnz Hm HL. destruct m as [ | p | p]; cbn [binary_normalize].
  - simpl in Hnz. lia.
  - apply binary_round_lower; assumption.
  - apply binary_round_lower; assumption.
Qed.

Lemma of_Z_lower (y L : Z) :
  (0 <= L)%Z -> (2 ^ L <= Z.abs y)%Z -> ge_pow2 L (y <? 0)%Z (of_Z y).
Proof.
  intros HL Hy. pose proof (pow2_positive L HL).
  unfold of_Z. apply binary_normalize_lower; [lia | | lia].
  rewrite Z.sub_0_r. exact Hy.
Qed.

Lemma aligned_ge (mx : positive) (ex ez L : Z) :
  (2 ^ (L - ex) <= Zpos mx)%Z -> (ez <= ex)%Z ->
  (2 ^ (L - ez) <= Zpos (fst (shl_align mx ex ez)))%Z.
Proof.
  intros Hx Hez.
  destruct (shl_align_spec mx ex ez) as (_ & Hm & Hs).
  rewrite Hm, (Hs Hez).
  replace (L - ez)%Z with ((L - ex) + (ex - ez))%Z by lia.
  apply pow2_scale_ge; lia.
Qed.

(** Subtracting a smaller Number keeps the sign. *)
Lemma sub_lower (x y : number) (K : Z) (s : bool) :
  ge_pow2 (K + 1) s x -> lt_pow2 K y -> (-1074 <= K)%Z ->
  ge_pow2 K s (sub x y).
Proof.
  intros Hx Hy HK.
  destruct x as [sx | sx | | sx mx ex]; destruct y as [sy | sy | | sy my ey];
    try contradiction.
  - exact Hx.
  - exact Hx.
  - apply (ge_pow2_mono (K + 1)); [exact Hx | lia].
  - cbn [ge_pow2 lt_pow2] in Hx, Hy. destruct Hx as [-> Hx].
    unfold sub, SFsub. change (IntDef.Z.min ex ey) with (Z.min ex ey).
    pose proof (aligned_ge mx ex (Z.min ex ey) (K + 1) Hx ltac:(lia)) as Ha.
    pose proof (aligned_lt my ey (Z.min ex ey) K Hy ltac:(lia)) as Hb.
    set (A := Zpos (fst (shl_align mx ex (Z.min ex ey)))) in *.
    set (B := Zpos (fst (shl_align my ey (Z.min ex ey)))) in *.
    pose proof (pow2_exponent_pos B (K - Z.min ex ey) ltac:(lia)) as Hk.
    replace (K + 1 - Z.min ex ey)%Z with (1 + (K - Z.min ex ey))%Z in Ha
      by lia.
    rewrite Z.pow_add_r in Ha by lia. change (2 ^ 1)%Z with 2%Z in Ha.
    assert (Hdiff : (2 ^ (K - Z.min ex ey) <= A - B)%Z) by lia.
    pose proof (pow2_positive (K - Z.min ex ey) ltac:(lia)) as Hpos.
    set (S := (cond_Zopp s A - cond_Zopp sy B)%Z).
    assert (HS : ((S <? 0)%Z = s /\ A - B <= Z.abs S)%Z).
    { unfold S, cond_Zopp. destruct s, sy; split;
        try (apply Z.ltb_lt; lia); try (apply Z.ltb_ge; lia); lia. }
    destruct HS as [Hsign Habs]. rewrite <- Hsign.
    apply binary_normalize_lower; lia.
Qed.

(** Adding a Number of the same sign keeps the bound. *)
Lemma add_lower (x y : number) (L L' : Z) :
  ge_pow2 L false x -> ge_pow2 L' false y -> (-1074 <= L)%Z ->
  ge_pow2 L false (add x y).
Proof.
  intros Hx Hy HL.
  destruct x as [sx | sx | | sx mx ex]; destruct y as [sy | sy | | sy my ey];
    try contradiction.
  - cbn [ge_pow2] in Hx, Hy. subst. reflexivity.
  - exact Hx.
  - cbn [ge_pow2] in Hy. subst. reflexivity.
  - cbn [ge_pow2] in Hx, Hy. destruct Hx as [-> Hx]. destruct Hy as [-> Hy].
    unfold add, SFadd. change (IntDef.Z.min ex ey) with (Z.min ex ey).
    pose proof (aligned_ge mx ex (Z.min ex ey) L Hx ltac:(lia)) as Ha.
    set (A := Zpos (fst (shl_align mx ex (Z.min ex ey)))) in *.
    set (B := Zpos (fst (shl_align my ey (Z.min ex ey)))) in *.
    cbn [cond_Zopp].
    replace false with (A + B <? 0)%Z by (apply Z.ltb_ge; lia).
    apply binary_normalize_lower; lia.
Qed.

(** Division by [27 = 2050 - 2023]. *)
Lemma div_27_lower (x : number) (L : Z) (s : bool) :
  ge_pow2 L s x -> (-1000 <= L)%Z -> ge_pow2 (L - 5) s (div x (of_Z 27)).
Proof.
  intros Hx HL.
  change (of_Z 27) with (S754_finite false 7599824371187712 (-48)).
  destruct x as [sx | sx | | sx mx ex]; try contradiction.
  - cbn [ge_pow2] in Hx. subst. cbn. apply xorb_false_r.
  - cbn [ge_pow2] in Hx. destruct Hx as [-> Hx].
    unfold div, SFdiv, SFdiv_core_binary.
    set (my := 7599824371187712%positive).
    assert (Hmy : (0 < Zpos my < 2 ^ 53)%Z) by (unfold my; simpl; lia).
    change (Zdigits2 (Zpos my)) with 53%Z.
    set (e' := Z.min (fexp prec emax (Zdigits2 (Zpos mx) + ex - (53 + -48)))
                     (ex - -48)).
    set (m' := match (ex - -48 - e')%Z with
               | Zpos _ => Z.shiftl (Zpos mx) (ex - -48 - e')
               | Z0 => Zpos mx
               | Zneg _ => 0%Z
               end).
    destruct (Zdigits2_lower (Zpos mx) ltac:(lia)) as [Hd1 Hdig].
    set (d := Zdigits2 (Zpos mx)) in *.
    assert (Hde : (L < d + ex)%Z).
    { destruct (Z.lt_ge_cases (L - ex) 0) as [Hneg | Hpos]; [lia | ].
      assert (L - ex < d)%Z; [ | lia].
      apply (Z.pow_lt_mono_r_iff 2); [lia | lia | ].
      apply Z.le_lt_trans with (Zpos mx); [exact Hx | ].
      pose proof (Zdigits2_le (Zpos mx) d) as Hle.
      destruct (Z.lt_ge_cases (Zpos mx) (2 ^ d)) as [H | H]; [exact H | ].
      exfalso. unfold d in H. cbn [Zdigits2] in H.
      rewrite digits2_pos_size in H.
      pose proof (Pos.size_gt mx) as Hgt.
      apply Pos2Z.pos_lt_pos in Hgt. rewrite Pos2Z.inj_pow in Hgt. lia. }
    assert (He' : (e' <= ex + 48 /\ 53 <= d - 1 + (ex + 48 - e'))%Z).
    { unfold e', fexp, emin, prec, emax. fold d.
      change (IntDef.Z.min) with Z.min. change (IntDef.Z.max) with Z.max.
      lia. }
    assert (Hm' : m' = (Zpos mx * 2 ^ (ex + 48 - e'))%Z).
    { unfold m'. replace (ex - -48 - e')%Z with (ex + 48 - e')%Z by lia.
      destruct (ex + 48 - e')%Z as [ | k | k] eqn:Hk.
      - simpl. lia.
      - rewrite Z.shiftl_mul_pow2 by lia. reflexivity.
      - lia. }
    assert (Hbig : forall a, (0 <= a)%Z -> (2 ^ (a + 53) <= m')%Z ->
                             (2 ^ a <= m' / Zpos my)%Z).
    { intros a Ha Hle. apply Z.div_le_lower_bound; [lia | ].
      pose proof (pow2_positive a Ha).
      apply Z.le_trans with (2 ^ (a + 53))%Z; [ | exact Hle].
      rewrite Z.pow_add_r by lia. nia. }
    assert (H1 : (1 <= m' / Zpos my)%Z).
    { change 1%Z with (2 ^ 0)%Z. apply Hbig; [lia | ].
      rewrite Hm'.
      apply Z.le_trans with (2 ^ ((d - 1) + (ex + 48 - e')))%Z;
        [apply pow2_le; lia | ].
      apply pow2_scale_ge; lia. }
    assert (HL' : (2 ^ (L - 5 - e') <= m' / Zpos my)%Z).
    { destruct (Z.lt_ge_cases (L - 5 - e') 0) as [Hneg | Hpos].
      - rewrite Z.pow_neg_r by exact Hneg. lia.
      - apply Hbig; [exact Hpos | ]. rewrite Hm'.
        replace (L - 5 - e' + 53)%Z with ((L - ex) + (ex + 48 - e'))%Z by lia.
        apply pow2_scale_ge; lia. }
    unfold Z.div in H1, HL'.
    destruct (Z.div_eucl m' (Zpos my)) as [q r]. cbn [fst] in H1, HL'.
    rewrite xorb_false_r.
    apply binary_round_aux_lower; [exact H1 | exact HL' | lia].
Qed.

(** *** The sign of [year - 2023] *)

Lemma yearDiff_small :
  forallb yearDiff_sign_ok small_years = true.
Proof. vm_compute. reflexivity. Qed.

Lemma small_years_spec (y : Z) :
  (-4096 < y < 4096)%Z -> In y small_years.
Proof.
  intros Hy. unfold small_years. apply in_map_iff.
  exists (Z.to_nat (y + 4095)). split; [lia | apply in_seq; lia].
Qed.

Lemma yearDiff_lower (year : Z) :
  year <> 2023%Z ->
  ge_pow2 0 (year <? 2023)%Z (Spec.yearDiff (of_Z year)).
Proof.
  intros Hne.
  destruct (Z.lt_ge_cases (Z.abs year) 4096) as [Hsmall | Hlarge].
  - pose proof yearDiff_small as Hall. rewrite forallb_forall in Hall.
    specialize (Hall year (small_years_spec year ltac:(lia))).
    unfold yearDiff_sign_ok in Hall.
    destruct (Spec.yearDiff (of_Z year)) as [s | s | | s m e];
      try discriminate Hall.
    + apply Z.eqb_eq in Hall. contradiction.
    + apply andb_true_iff in Hall. destruct Hall as [Hs Hm].
      apply Bool.eqb_prop in Hs. apply Z.leb_le in Hm.
      split; assumption.
  - assert (Hsign : (year <? 2023)%Z = (year <? 0)%Z).
    { destruct (Z.ltb_spec year 0); destruct (Z.ltb_spec year 2023);
        try reflexivity; lia. }
    rewrite Hsign. unfold Spec.yearDiff.
    apply (ge_pow2_mono 11); [ | lia].
    apply sub_lower; [ | vm_compute; reflexivity | lia].
    apply of_Z_lower; [lia | exact Hlarge].
Qed.

(** *** From the sign of a product to its string *)

Lemma signed_toFixed (p : number) (L : Z) (s : bool) :
  ge_pow2 L s p -> lt_pow2 69 p ->
  exists a b,
    toFixed 1 p = Normal (fixed_string s a b) /\
    (1 <= List.length a)%nat /\ all_digits a /\ all_digits b /\
    List.length b = 1%nat.
Proof.
  intros Hge Hlt.
  pose proof (lt_pow2_in_fixed_range p Hlt) as Hin.
  destruct p as [sp | sp | | sp m e]; try contradiction.
  cbn [ge_pow2] in Hge. destruct Hge as [-> _].
  cbn [in_fixed_range] in Hin. apply negb_true_iff in Hin.
  destruct (fixed_notation_shape 1 (nearest_scaled 1 m e) ltac:(lia))
    as (a & b & Hfn & Hla & Hda & Hdb & Hlb & _).
  exists a, b. unfold toFixed. cbn [Z.ltb Z.compare orb].
  rewrite Hin, Hfn. repeat split; assumption.
Qed.

Lemma fixed_string_negative (a b : list ascii) :
  (1 <= List.length a)%nat -> all_digits a -> all_digits b ->
  List.length b = 1%nat ->
  negative_one_decimal (fixed_string true a b) = true.
Proof.
  intros Hla Hda Hdb Hlb.
  pose proof (fixed_string_fraction_digits true a b Hla Hda Hdb) as Hfd.
  rewrite Hlb in Hfd. unfold negative_one_decimal.
  unfold fixed_string in *. cbn [app string_of_list_ascii] in *.
  rewrite Hfd. reflexivity.
Qed.

Lemma fixed_string_unsigned (a b : list ascii) :
  (1 <= List.length a)%nat -> all_digits a -> all_digits b ->
  List.length b = 1%nat ->
  unsigned_one_decimal (fixed_string false a b) = true.
Proof.
  intros Hla Hda Hdb Hlb.
  pose proof (fixed_string_fraction_digits false a b Hla Hda Hdb) as Hfd.
  rewrite Hlb in Hfd. unfold unsigned_one_decimal.
  unfold fixed_string in *. cbn [app] in *.
  destruct a as [ | c a]; [simpl in Hla; lia | ].
  cbn [app string_of_list_ascii] in *.
  rewrite Hfd. unfold all_digits in Hda.
  rewrite (Forall_inv Hda). reflexivity.
Qed.

(** *** The three interpolated products *)

Lemma product_lower (yd c fk : number) (Lc : Z) (s : bool) :
  ge_pow2 0 s yd -> ge_pow2 Lc false c -> ge_pow2 (-1) false fk ->
  (-900 <= Lc)%Z ->
  ge_pow2 (Lc - 6) s (mul (div (mul yd c) (of_Z 27)) fk).
Proof.
  intros Hyd Hc Hf HL.
  pose proof (mul_lower yd c 0 Lc s false Hyd Hc ltac:(lia)) as H1.
  rewrite xorb_false_r in H1.
  pose proof (div_27_lower _ _ _ H1 ltac:(lia)) as H2.
  pose proof (mul_lower _ fk _ (-1) s false H2 Hf ltac:(lia)) as H3.
  rewrite xorb_false_r in H3.
  apply (ge_pow2_mono _ _ _ _ H3). lia.
Qed.

Lemma regionalFactors_above_half (r : Region) (f : Factors.t) :
  get regionalFactors (region_name r) = Some f -> factors_above_half f.
Proof.
  intros Hf. destruct r; injection Hf as <-;
    repeat split; vm_compute; discriminate.
Qed.

Lemma metrics_unsigned_2023 (r : Region) : metrics_unsigned 2023 r = true.
Proof. destruct r; vm_compute; reflexivity. Qed.

Lemma signed_field (v : number) (L : Z) (s : bool) (str : string) :
  ge_pow2 L s v -> lt_pow2 69 v -> toFixed 1 v = Normal str ->
  (if s then negative_one_decimal str else unsigned_one_decimal str) = true.
Proof.
  intros Hge Hlt Hstr.
  destruct (signed_toFixed v L s Hge Hlt)
    as (a & b & Hfix & Hla & Hda & Hdb & Hlb).
  rewrite Hstr in Hfix. injection Hfix as ->.
  destruct s.
  - apply fixed_string_negative; assumption.
  - apply fixed_string_unsigned; assumption.
Qed.

(** X11: the sign of the projections follows the year. For every integer
    year of magnitude up to 10^18 and every Region: from 2023 on, all four
    fields are unsigned one-decimal numbers; before 2023, precipitation,
    seaLevel and extremeEvents each carry a minus sign, so a "+" written
    before them would read "+-". *)
Theorem X11_sign_follows_year (year : Z) (r : Region) :
  (Z.abs year <= 10 ^ 18)%Z ->
  exists m,
    calculateMetrics (of_Z year) r = Normal m /\
    ((2023 <= year)%Z ->
     forallb unsigned_one_decimal (Spec.fields m) = true) /\
    ((year < 2023)%Z ->
     forallb negative_one_decimal
             [ Metrics.precipitation m; Metrics.seaLevel m;
               Metrics.extremeEvents m ] = true).
Proof.
  intros Hy.
  destruct (calculateMetrics_fields (of_Z year) r) as (f & m & Hf & Hm & Heq).
  exists m. split; [exact Hm | ].
  assert (Hy' : (Z.abs year < 2 ^ 60)%Z).
  { apply Z.le_lt_trans with (10 ^ 18)%Z; [exact Hy | reflexivity]. }
  pose proof (scaled_lt_pow2 year f Hy' (regionalFactors_below_2 r f Hf))
    as Hlt.
  destruct (regionalFactors_above_half r f Hf) as (Ht & Hp & Hs & He).
  unfold Spec.scaled, Spec.fields in *. cbn [map] in Heq.
  injection Heq as E1 E2 E3 E4.
  apply Forall_cons_iff in Hlt. destruct Hlt as [L1 Hlt].
  apply Forall_cons_iff in Hlt. destruct Hlt as [L2 Hlt].
  apply Forall_cons_iff in Hlt. destruct Hlt as [L3 Hlt].
  apply Forall_cons_iff in Hlt. destruct Hlt as [L4 _].
  unfold Spec.baseTemp, Spec.basePrecip, Spec.baseSeaLevel,
    Spec.baseExtreme in *.
  change (sub (of_Z 2050) (of_Z 2023)) with (of_Z 27) in *.
  assert (Hc0 : ge_pow2 (-1) false (sub (lit 16 1) (lit 11 1)))
    by (vm_compute; split; [reflexivity | discriminate]).
  assert (Hc1 : ge_pow2 0 false (lit 11 1))
    by (vm_compute; split; [reflexivity | discriminate]).
  assert (Hc2 : ge_pow2 2 false (lit 53 1))
    by (vm_compute; split; [reflexivity | discriminate]).
  assert (Hc3 : ge_pow2 4 false (lit 263 1))
    by (vm_compute; split; [reflexivity | discriminate]).
  assert (Hc4 : ge_pow2 5 false (of_Z 32))
    by (vm_compute; split; [reflexivity | discriminate]).
  split.
  - intros Hge. destruct (Z.eq_dec year 2023) as [-> | Hne].
    + pose proof (metrics_unsigned_2023 r) as H.
      unfold metrics_unsigned in H. rewrite Hm in H. exact H.
    + pose proof (yearDiff_lower year Hne) as Hyd.
      replace (year <? 2023)%Z with false in Hyd
        by (symmetry; apply Z.ltb_ge; lia).
      pose proof (mul_lower _ _ _ _ _ _ Hyd Hc0 ltac:(lia)) as T1.
      pose proof (div_27_lower _ _ _ T1 ltac:(lia)) as T2.
      pose proof (add_lower _ _ _ _ Hc1 T2 ltac:(lia)) as T3.
      pose proof (mul_lower _ _ _ _ _ _ T3 Ht ltac:(lia)) as T4.
      cbn [xorb] in T4.
      pose proof (product_lower _ _ _ _ _ Hyd Hc2 Hp ltac:(lia)) as P1.
      pose proof (product_lower _ _ _ _ _ Hyd Hc3 Hs ltac:(lia)) as P2.
      pose proof (product_lower _ _ _ _ _ Hyd Hc4 He ltac:(lia)) as P3.
      cbn [forallb].
      rewrite (signed_field _ _ false _ T4 L1 E1).
      rewrite (signed_field _ _ false _ P1 L2 E2).
      rewrite (signed_field _ _ false _ P2 L3 E3).
      rewrite (signed_field _ _ false _ P3 L4 E4).
      reflexivity.
  - intros Hbefore.
    pose proof (yearDiff_lower year ltac:(lia)) as Hyd.
    replace (year <? 2023)%Z with true in Hyd
      by (symmetry; apply Z.ltb_lt; lia).
    pose proof (product_lower _ _ _ _ _ Hyd Hc2 Hp ltac:(lia)) as P1.
    pose proof (product_lower _ _ _ _ _ Hyd Hc3 Hs ltac:(lia)) as P2.
    pose proof (product_lower _ _ _ _ _ Hyd Hc4 He ltac:(lia)) as P3.
    cbn [forallb].
    rewrite (signed_field _ _ true _ P1 L2 E2).
    rewrite (signed_field _ _ true _ P2 L3 E3).
    rewrite (signed_field _ _ true _ P3 L4 E4).
    reflexivity.
Qed.

Lemma X11_witness :
  (exists m,
      calculateMetrics (of_Z 3000) Oceania = Normal m /\
      forallb unsigned_one_decimal (Spec.fields m) = true) /\
  (exists m,
      calculateMetrics (of_Z 1999) Oceania = Normal m /\
      forallb negative_one_decimal
              [ Metrics.precipitation m; Metrics.seaLevel m;
                Metrics.extremeEvents m ] = true).
Proof.
  split.
  - destruct (X11_sign_follows_year 3000 Oceania) as (m & Hm & Hpos & _).
    + vm_compute. discriminate.
    + exists m. split; [exact Hm | ]. apply Hpos. lia.
  - destruct (X11_sign_follows_year 1999 Oceania) as (m & Hm & _ & Hneg).
    + vm_compute. discriminate.
    + exists m. split; [exact Hm | ]. apply Hneg. lia.
Defined.

(** *** Where the temperature changes sign *)

(** Adding a smaller Number to [y] keeps the sign of [y]. *)
Lemma add_dominated (x y : number) (K : Z) (s : bool) :
  lt_pow2 K x -> ge_pow2 (K + 1) s y -> (-1074 <= K)%Z ->
  ge_pow2 K s (add x y).
Proof.
  intros Hx Hy HK.
  destruct x as [sx | sx | | sx mx ex]; destruct y as [sy | sy | | sy my ey];
    try contradiction.
  - exact Hy.
  - apply (ge_pow2_mono (K + 1)); [exact Hy | lia].
  - exact Hy.
  - cbn [ge_pow2 lt_pow2] in Hx, Hy. destruct Hy as [-> Hy].
    unfold add, SFadd. change (IntDef.Z.min ex ey) with (Z.min ex ey).
    pose proof (aligned_lt mx ex (Z.min ex ey) K Hx ltac:(lia)) as Ha.
    pose proof (aligned_ge my ey (Z.min ex ey) (K + 1) Hy ltac:(lia)) as Hb.
    set (A := Zpos (fst (shl_align mx ex (Z.min ex ey)))) in *.
    set (B := Zpos (fst (shl_align my ey (Z.min ex ey)))) in *.
    pose proof (pow2_exponent_pos A (K - Z.min ex ey) ltac:(lia)) as Hk.
    replace (K + 1 - Z.min ex ey)%Z with (1 + (K - Z.min ex ey))%Z in Hb
      by lia.
    rewrite Z.pow_add_r in Hb by lia. change (2 ^ 1)%Z with 2%Z in Hb.
    assert (Hdiff : (2 ^ (K - Z.min ex ey) <= B - A)%Z) by lia.
    pose proof (pow2_positive (K - Z.min ex ey) ltac:(lia)) as Hpos.
    set (S := (cond_Zopp sx A + cond_Zopp s B)%Z).
    assert (HS : ((S <? 0)%Z = s /\ B - A <= Z.abs S)%Z).
    { unfold S, cond_Zopp. destruct s, sx; split;
        try (apply Z.ltb_lt; lia); try (apply Z.ltb_ge; lia); lia. }
    destruct HS as [Hsign Habs]. rewrite <- Hsign.
    apply binary_normalize_lower; lia.
Qed.

Lemma baseTemp_small :
  forallb baseTemp_sign_ok small_years = true.
Proof. vm_compute. reflexivity. Qed.

(** For every integer year, the base temperature increase has a sign: minus
    up to 1963, plus from 1964 on. *)
Lemma baseTemp_lower (year : Z) :
  ge_pow2 (-8) (year <=? 1963)%Z (Spec.baseTemp (of_Z year)).
Proof.
  destruct (Z.lt_ge_cases (Z.abs year) 4096) as [Hsmall | Hlarge].
  - pose proof baseTemp_small as Hall. rewrite forallb_forall in Hall.
    specialize (Hall year (small_years_spec year ltac:(lia))).
    unfold baseTemp_sign_ok in Hall.
    destruct (Spec.baseTemp (of_Z year)) as [s | s | | s m e];
      try discriminate Hall.
    apply andb_true_iff in Hall. destruct Hall as [Hs Hm].
    apply Bool.eqb_prop in Hs. apply Z.leb_le in Hm.
    split; assumption.
  - assert (Hsign : (year <=? 1963)%Z = (year <? 0)%Z).
    { destruct (Z.ltb_spec year 0); destruct (Z.leb_spec year 1963);
        try reflexivity; lia. }
    rewrite Hsign. unfold Spec.baseTemp, Spec.yearDiff.
    change (sub (of_Z 2050) (of_Z 2023)) with (of_Z 27).
    assert (Hyd : ge_pow2 11 (year <? 0)%Z (sub (of_Z year) (of_Z 2023))).
    { apply sub_lower; [ | vm_compute; reflexivity | lia].
      apply of_Z_lower; [lia | exact Hlarge]. }
    assert (Hc0 : ge_pow2 (-1) false (sub (lit 16 1) (lit 11 1)))
      by (vm_compute; split; [reflexivity | discriminate]).
    pose proof (mul_lower _ _ _ _ _ _ Hyd Hc0 ltac:(lia)) as T1.
    rewrite xorb_false_r in T1.
    pose proof (div_27_lower _ _ _ T1 ltac:(lia)) as T2.
    apply (ge_pow2_mono 1); [ | lia].
    apply add_dominated; [vm_compute; reflexivity | | lia].
    apply (ge_pow2_mono (11 + -1 - 5)); [exact T2 | lia].
Qed.

(** X12: the temperature projection changes sign between 1963 and 1964.
    For every integer year of magnitude up to 10^18 and every Region, the
    temperature field carries a minus sign when the year is at most 1963,
    and is an unsigned one-decimal number from 1964 on. *)
Theorem X12_temperature_sign (year : Z) (r : Region) :
  (Z.abs year <= 10 ^ 18)%Z ->
  exists m,
    calculateMetrics (of_Z year) r = Normal m /\
    (if (year <=? 1963)%Z
     then negative_one_decimal (Metrics.temperature m)
     else unsigned_one_decimal (Metrics.temperature m)) = true.
Proof.
  intros Hy.
  destruct (calculateMetrics_fields (of_Z year) r) as (f & m & Hf & Hm & Heq).
  exists m. split; [exact Hm | ].
  assert (Hy' : (Z.abs year < 2 ^ 60)%Z).
  { apply Z.le_lt_trans with (10 ^ 18)%Z; [exact Hy | reflexivity]. }
  pose proof (scaled_lt_pow2 year f Hy' (regionalFactors_below_2 r f Hf))
    as Hlt.
  destruct (regionalFactors_above_half r f Hf) as (Ht & _).
  unfold Spec.scaled, Spec.fields in *. cbn [map] in Heq.
  injection Heq as E1 _ _ _.
  apply Forall_inv in Hlt.
  pose proof (mul_lower _ _ _ _ _ _ (baseTemp_lower year) Ht ltac:(lia)) as T.
  rewrite xorb_false_r in T.
  exact (signed_field _ _ _ _ T Hlt E1).
Qed.

Lemma X12_witness :
  (exists m,
      calculateMetrics (of_Z 1963) Africa = Normal m /\
      negative_one_decimal (Metrics.temperature m) = true) /\
  (exists m,
      calculateMetrics (of_Z 1964) Africa = Normal m /\
      unsigned_one_decimal (Metrics.temperature m) = true).
Proof.
  split.
  - destruct (X12_temperature_sign 1963 Africa) as (m & Hm & Hs).
    + vm_compute. discriminate.
    + exists m. split; [exact Hm | exact Hs].
  - destruct (X12_temperature_sign 1964 Africa) as (m & Hm & Hs).
    + vm_compute. discriminate.
    + exists m. split; [exact Hm | exact Hs].
Defined.
